(** * DFU transport of pc-ble-driver-js: a shallow embedding

    The development follows [src/api/dfu/dfuConstants.js] and
    [src/api/dfu/dfuTransport.js].  Promise chains become state passing
    over a [Transport] record with an explicit settled result; the
    collaborators the transport drives (adapter, device information
    service, control point service, object writer, state calculators)
    are an interface, so every statement holds for all their behaviours. *)

From Stdlib Require Import ZArith List String Bool Lia QArith.
From Stdlib Require Import DecimalString.
From Equations Require Import Equations.
Import ListNotations.

Local Open Scope Z_scope.
Local Open Scope string_scope.

(** ** dfuConstants.js *)

Module ControlPointOpcode.
Definition CREATE : Z := 0x01.
Definition SET_PRN : Z := 0x02.
Definition CALCULATE_CRC : Z := 0x03.
Definition EXECUTE : Z := 0x04.
Definition SELECT : Z := 0x06.
Definition RESPONSE : Z := 0x60.
End ControlPointOpcode.

Module ResultCode.
Definition INVALID_CODE : Z := 0x00.
Definition SUCCESS : Z := 0x01.
Definition OPCODE_NOT_SUPPORTED : Z := 0x02.
Definition INVALID_PARAMETER : Z := 0x03.
Definition INSUFFICIENT_RESOURCES : Z := 0x04.
Definition INVALID_OBJECT : Z := 0x05.
Definition UNSUPPORTED_TYPE : Z := 0x07.
Definition OPERATION_NOT_PERMITTED : Z := 0x08.
Definition OPERATION_FAILED : Z := 0x0A.
End ResultCode.

Module ObjectType.
Definition COMMAND : Z := 0x01.
Definition DATA : Z := 0x02.
End ObjectType.

Module ErrorCode.
Definition ABORTED : Z := 0x01.
Definition NOTIFICATION_TIMEOUT : Z := 0x02.
Definition UNEXPECTED_NOTIFICATION : Z := 0x03.
Definition INVALID_CRC : Z := 0x04.
Definition INVALID_OFFSET : Z := 0x05.
Definition WRITE_ERROR : Z := 0x06.
Definition COMMAND_ERROR : Z := 0x07.
Definition NO_DFU_CHARACTERISTIC : Z := 0x08.
Definition NO_DFU_SERVICE : Z := 0x09.
Definition NOTIFICATION_START_ERROR : Z := 0x10.
Definition NOTIFICATION_STOP_ERROR : Z := 0x11.
Definition INIT_PACKET_TOO_LARGE : Z := 0x12.
Definition DISCONNECTION_TIMEOUT : Z := 0x13.
Definition CONNECTION_PARAM_ERROR : Z := 0x14.
Definition ATT_MTU_ERROR : Z := 0x15.
End ErrorCode.

(** A JS [Error]: [code] is [None] for an error that carries no code
    (one not made by [createError]). *)
Record Error := { code : option Z; message : string }.

Definition createError (c : Z) (msg : string) : Error :=
  {| code := Some c; message := msg |}.

(** ** Values *)

(** A JS number that may be [undefined]: [sendInitPacket] starts a fresh
    object without passing offset and crc32. *)
Definition jsnum := option Z.

Definition jsnum_eqb (a b : jsnum) : bool :=
  match a, b with
  | Some x, Some y => Z.eqb x y
  | None, None => true
  | _, _ => false
  end.

(** Interpolation of a number in a template string. *)
Definition show (n : jsnum) : string :=
  match n with
  | Some z => NilZero.string_of_int (Z.to_int z)
  | None => "undefined"
  end.

(** What the object writer and [calculateChecksum] report. *)
Record Progress := { offset : jsnum; crc32 : jsnum }.

(** The response of [selectObject]. *)
Record SelectResponse :=
  { sel_offset : jsnum; sel_crc32 : jsnum; maximumSize : jsnum }.

(** The payload of the writer's [packetWritten] event. *)
Record PacketWritten := { pw_offset : jsnum; pw_type : Z }.

(** A [progressUpdate] event: [event_offset] is [None] when the object
    has no [offset] property. *)
Record ProgressEvent := { stage : string; event_offset : option jsnum }.

(** Settled promises. *)
Inductive Result (A : Type) : Type :=
| Resolved (a : A)
| Rejected (e : Error).
Arguments Resolved {A} a.
Arguments Rejected {A} e.

(** ** Devices of the adapter *)

Record Device :=
  { instanceId : string; address : string; connected : bool }.

(** [adapter.getDevices()]: an object from device id to device; the order
    of its keys matters to [find]. *)
Definition Devices := list (string * Device).

Fixpoint devices_get (devices : Devices) (deviceId : string) : option Device :=
  match devices with
  | [] => None
  | (k, d) :: rest =>
      if String.eqb k deviceId then Some d else devices_get rest deviceId
  end.

Record ConnectionParameters :=
  { min_conn_interval : Q; max_conn_interval : Q;
    slave_latency : Q; conn_sup_timeout : Q }.

Record ScanParameters :=
  { active : bool; interval : Z; window : Z; scan_timeout : Z }.

Definition MAX_RETRIES : nat := 3.

Definition DFU_SERVICE_UUID := "FE59".
Definition DFU_CONTROL_POINT_UUID := "8EC90001F3154F609FB8838830DAEA50".
Definition DFU_PACKET_UUID := "8EC90002F3154F609FB8838830DAEA50".

Definition DEFAULT_CONNECTION_PARAMS : ConnectionParameters :=
  {| min_conn_interval := 15 # 2; max_conn_interval := 15 # 2;
     slave_latency := 0; conn_sup_timeout := 4000 # 1 |}.

Definition DEFAULT_SCAN_PARAMS : ScanParameters :=
  {| active := true; interval := 100; window := 50; scan_timeout := 20 |}.

Definition bytes := list Init.Byte.byte.

(** ** dfuModels.js (interface)

    [InitPacketState] and [FirmwareState] are classes of [dfuModels.js];
    the transport reads these properties of their instances. *)

Record InitPacketState :=
  { ip_isResumable : bool; remainingData : bytes;
    ip_offset : jsnum; ip_crc32 : jsnum }.

Record FirmwareState :=
  { fw_isResumable : bool; fw_offset : jsnum; fw_crc32 : jsnum;
    remainingObjects : list bytes; remainingPartialObject : bytes }.

(** ** Calls the transport makes on its collaborators *)

Inductive Call :=
| GetDevices
| Connect (addr addrType : string) (scanParams : ScanParameters)
    (connParams : ConnectionParameters)
| GetCharacteristicId (deviceInstanceId serviceUuid characteristicUuid : string)
| StartCharacteristicsNotifications (characteristicId : string) (ack : bool)
| UpdateConnectionParameters (deviceInstanceId : string)
    (connectionParameters : ConnectionParameters)
| SelectObject (type : Z)
| CreateObject (type : Z) (size : nat)
| CalculateChecksum
| Execute
| SetPRN (prn : Z)
| WriteObject (data : bytes) (type : Z) (startOffset startCrc32 : jsnum)
| WriterSetPrn (prn : Z)
| WriterSetMtuSize (mtuSize : Z)
| WriterAbort.

(** The collaborators, over a state [Env] of everything outside the
    transport (adapter, link and target device).  A promise they return
    settles with a [Result]; a node-style callback receives [Some err]
    or [None]. *)
Class Collaborators (Env : Type) := {
  (* adapter *)
  adapter_getDevices : Env -> Devices;
  adapter_connect :
    string -> string -> ScanParameters -> ConnectionParameters ->
    Env -> Result Device * Env;
  adapter_startCharacteristicsNotifications :
    string -> bool -> Env -> option Error * Env;
  adapter_updateConnectionParameters :
    string -> ConnectionParameters -> Env -> option Error * Env;
  (* DeviceInfoService *)
  deviceInfo_getCharacteristicId :
    string -> string -> string -> Env -> Result string * Env;
  (* ControlPointService *)
  controlPoint_selectObject : Z -> Env -> Result SelectResponse * Env;
  controlPoint_createObject : Z -> nat -> Env -> Result unit * Env;
  controlPoint_calculateChecksum : Env -> Result Progress * Env;
  controlPoint_execute : Env -> Result unit * Env;
  controlPoint_setPRN : Z -> Env -> Result unit * Env;
  (* DfuObjectWriter: the packetWritten events of one write, then its result *)
  writer_writeObject :
    bytes -> Z -> jsnum -> jsnum ->
    Env -> (list PacketWritten * Result Progress) * Env;
  writer_setPrn : Z -> Env -> Result unit * Env;
  writer_setMtuSize : Z -> Env -> Result unit * Env;
  writer_abort : Env -> Env;
  (* dfuModels *)
  new_InitPacketState : bytes -> SelectResponse -> Result InitPacketState;
  new_FirmwareState : bytes -> SelectResponse -> Result FirmwareState
}.

Record TransportParameters :=
  { targetAddress : string; targetAddressType : string;
    prnValue : option Z; mtuSize : option Z }.

(** Truthiness of an optional number, as in [prnValue ? ... : null]. *)
Definition truthy (n : option Z) : bool :=
  match n with
  | Some z => negb (Z.eqb z 0)
  | None => false
  end.

Section DfuTransport.

Context {Env : Type} `{Collaborators Env}.

(** The transport object with the world it acts on.  [calls] and
    [progressUpdates] record, oldest first, the collaborator calls made
    and the [progressUpdate] events emitted; the [logMessage] events of
    [_debug] are not recorded. *)
Record Transport := {
  world : Env;
  _transportParameters : TransportParameters;
  _isInitialized : bool;
  _controlPointService : option string;
  _objectWriter : option (string * string);
  calls : list Call;
  progressUpdates : list ProgressEvent
}.

Definition set_world (w : Env) (t : Transport) : Transport :=
  {| world := w;
     _transportParameters := _transportParameters t;
     _isInitialized := _isInitialized t;
     _controlPointService := _controlPointService t;
     _objectWriter := _objectWriter t;
     calls := calls t;
     progressUpdates := progressUpdates t |}.

Definition log (c : Call) (t : Transport) : Transport :=
  {| world := world t;
     _transportParameters := _transportParameters t;
     _isInitialized := _isInitialized t;
     _controlPointService := _controlPointService t;
     _objectWriter := _objectWriter t;
     calls := (calls t ++ [c])%list;
     progressUpdates := progressUpdates t |}.

Definition emit (evs : list ProgressEvent) (t : Transport) : Transport :=
  {| world := world t;
     _transportParameters := _transportParameters t;
     _isInitialized := _isInitialized t;
     _controlPointService := _controlPointService t;
     _objectWriter := _objectWriter t;
     calls := calls t;
     progressUpdates := (progressUpdates t ++ evs)%list |}.

Definition set_services (controlPointId packetId : string) (t : Transport)
  : Transport :=
  {| world := world t;
     _transportParameters := _transportParameters t;
     _isInitialized := _isInitialized t;
     _controlPointService := Some controlPointId;
     _objectWriter := Some (controlPointId, packetId);
     calls := calls t;
     progressUpdates := progressUpdates t |}.

Definition set_isInitialized (b : bool) (t : Transport) : Transport :=
  {| world := world t;
     _transportParameters := _transportParameters t;
     _isInitialized := b;
     _controlPointService := _controlPointService t;
     _objectWriter := _objectWriter t;
     calls := calls t;
     progressUpdates := progressUpdates t |}.

(** *** Promises that settle *)

Definition Promise (A : Type) : Type := Transport -> Result A * Transport.

Definition resolve {A} (a : A) : Promise A := fun t => (Resolved a, t).

Definition reject {A} (e : Error) : Promise A := fun t => (Rejected e, t).

(** [p.then(f)]: a rejection of [p] skips [f]. *)
Definition then_ {A B} (p : Promise A) (f : A -> Promise B) : Promise B :=
  fun t =>
    match p t with
    | (Resolved a, t') => f a t'
    | (Rejected e, t') => (Rejected e, t')
    end.

(** A call on a collaborator that returns a promise. *)
Definition call {A} (c : Call) (h : Env -> Result A * Env) : Promise A :=
  fun t => let (r, w) := h (world t) in (r, log c (set_world w t)).

End DfuTransport.

Arguments Transport Env : clear implicits.

Declare Scope promise_scope.
Delimit Scope promise_scope with promise.
Notation "x <- p ;; k" := (then_ p (fun x => k))
  (at level 61, p at next level, right associativity) : promise_scope.
Notation "p ;; k" := (then_ p (fun _ => k))
  (at level 61, right associativity) : promise_scope.

(** ** dfuTransport.js: transfer of objects

    These methods are private: the public operations reach them after
    [init] has created the control point service and the object writer,
    so the calls on both are always answered by the collaborators. *)

Section Transfer.

Context {Env : Type} `{Collaborators Env}.

Local Open Scope promise_scope.

Definition _getObjectTypeString (type : Z) : string :=
  if Z.eqb type ObjectType.COMMAND then "init packet"
  else if Z.eqb type ObjectType.DATA then "firmware"
  else "unknown object".

Definition _emitTransferEvent (packetOffset : jsnum) (type : Z)
  (t : Transport Env) : Transport Env :=
  let event :=
    {| stage := "Transferring " ++ _getObjectTypeString type;
       event_offset := None |} in
  let event :=
    if Z.eqb type ObjectType.DATA
    then {| stage := stage event; event_offset := Some packetOffset |}
    else event in
  emit [event] t.

Definition _emitInitializeEvent (type : Z) (t : Transport Env)
  : Transport Env :=
  emit [ {| stage := "Initializing " ++ _getObjectTypeString type;
            event_offset := None |} ] t.

(** The listener [init] puts on the writer's [packetWritten] event. *)
Definition on_packetWritten (t : Transport Env) (progress : PacketWritten)
  : Transport Env :=
  _emitTransferEvent (pw_offset progress) (pw_type progress) t.

(** [this._objectWriter.writeObject(data, type, offset, crc32)], with the
    listener run on each packet the write reports. *)
Definition objectWriter_writeObject (data : bytes) (type : Z)
  (startOffset startCrc32 : jsnum) : Promise Progress :=
  fun t =>
    let '((packets, r), w) :=
      writer_writeObject data type startOffset startCrc32 (world t) in
    (r, fold_left on_packetWritten packets
          (log (WriteObject data type startOffset startCrc32) (set_world w t))).

Definition _validateProgress (progressInfo : Progress) : Promise unit :=
  response <- call CalculateChecksum controlPoint_calculateChecksum ;;
  if negb (jsnum_eqb (offset progressInfo) (offset response)) then
    reject (createError ErrorCode.INVALID_OFFSET
      ("Error when validating offset. Got " ++ show (offset response) ++
       ", but expected " ++ show (offset progressInfo) ++ "."))
  else if negb (jsnum_eqb (crc32 progressInfo) (crc32 response)) then
    reject (createError ErrorCode.INVALID_CRC
      ("Error when validating CRC. Got " ++ show (crc32 response) ++
       ", but expected " ++ show (crc32 progressInfo) ++ "."))
  else resolve tt.

Definition _writeObject (data : bytes) (type : Z)
  (startOffset startCrc32 : jsnum) : Promise Progress :=
  progress <- objectWriter_writeObject data type startOffset startCrc32 ;;
  (_validateProgress progress ;;
   call Execute controlPoint_execute ;;
   resolve progress).

(** [error.code !== c] *)
Definition code_differs (e : Error) (c : Z) : bool :=
  match code e with
  | Some x => negb (Z.eqb x c)
  | None => true
  end.

Definition _shouldRetry (attempts : nat) (error : Error) : bool :=
  if Nat.ltb attempts MAX_RETRIES
     && code_differs error ErrorCode.ABORTED
     && code_differs error ErrorCode.NOTIFICATION_TIMEOUT
  then true
  else false.

Section CreateAndWriteObject.

(** What the closure [tryWrite] captures. *)
Variables (data : bytes) (type : Z) (startOffset startCrc32 : jsnum).

(** One pass through the chain of [tryWrite] up to its [catch]. *)
Definition attempt : Promise Progress :=
  call (CreateObject type (List.length data))
       (controlPoint_createObject type (List.length data)) ;;
  _writeObject data type startOffset startCrc32.

(** [tryWrite], entered with the current value of [attempts]; the
    increment happens in the [catch] before [_shouldRetry] is asked. *)
Equations? tryWrite (attempts : nat) (t : Transport Env)
  : Result Progress * Transport Env by wf (MAX_RETRIES - attempts)%nat lt :=
  tryWrite attempts t with attempt t => {
    | (Resolved progress, t') => (Resolved progress, t');
    | (Rejected error, t') with Logic.inspect (_shouldRetry (S attempts) error) => {
        | exist _ true Hretry => tryWrite (S attempts) t';
        | exist _ false _ => (Rejected error, t') } }.
Proof.
  unfold _shouldRetry in Hretry.
  destruct (Nat.ltb_spec (S attempts) MAX_RETRIES) as [Hlt | Hge];
    [unfold MAX_RETRIES in Hlt | discriminate Hretry].
  destruct attempts as [| [| [| attempts]]]; lia.
Qed.

Definition _createAndWriteObject : Promise Progress := tryWrite 0%nat.

End CreateAndWriteObject.

Definition _createAndWriteObjects (objects : list bytes) (type : Z)
  (startOffset startCrc32 : jsnum) : Promise Progress :=
  fold_left
    (fun prevPromise object =>
       progress <- prevPromise ;;
       _createAndWriteObject object type (offset progress) (crc32 progress))
    objects
    (resolve {| offset := startOffset; crc32 := startCrc32 |}).

End Transfer.

(** ** dfuTransport.js: construction, initialization, public transfers *)

Section Lifecycle.

Context {Env : Type} `{Collaborators Env}.

Definition dquote : string := String (Ascii.ascii_of_nat 34) EmptyString.

(** [new DfuTransport(transportParameters)].  The adapter is the world
    itself, so only the target address can be missing (empty).  The
    constructor also subscribes [_handleConnParamUpdateRequest] to the
    adapter's [connParamUpdateRequest] event. *)
Definition constructor (transportParameters : TransportParameters)
  (adapter : Env) : Result (Transport Env) :=
  if String.eqb (targetAddress transportParameters) "" then
    Rejected {| code := None;
                message := "Required transport parameter " ++ dquote ++
                           "targetAddress" ++ dquote ++ " was not provided" |}
  else
    Resolved {| world := adapter;
                _transportParameters := transportParameters;
                _isInitialized := false;
                _controlPointService := None;
                _objectWriter := None;
                calls := [];
                progressUpdates := [] |}.

(** [Object.keys(devices).find(id => devices[id].address === targetAddress)] *)
Definition find_deviceId (devices : Devices) (target : string)
  : option string :=
  find (fun deviceId =>
          match devices_get devices deviceId with
          | Some d => String.eqb (address d) target
          | None => false
          end)
       (map fst devices).

(** The body of [_getConnectedDevice] after [getDevices()]; a device id
    is truthy when it is not the empty string. *)
Definition connectedDevice (devices : Devices) (target : string)
  : option Device :=
  match find_deviceId devices target with
  | Some deviceId =>
      if negb (String.eqb deviceId "") then
        match devices_get devices deviceId with
        | Some d => if connected d then Some d else None
        | None => None
        end
      else None
  | None => None
  end.

Definition _getConnectedDevice (target : string) (t : Transport Env)
  : option Device * Transport Env :=
  (connectedDevice (adapter_getDevices (world t)) target, log GetDevices t).

Local Open Scope promise_scope.

Definition _connect (target targetType : string) : Promise Device :=
  call (Connect target targetType DEFAULT_SCAN_PARAMS DEFAULT_CONNECTION_PARAMS)
       (adapter_connect target targetType
          DEFAULT_SCAN_PARAMS DEFAULT_CONNECTION_PARAMS).

Definition _connectIfNeeded (target targetType : string) : Promise Device :=
  fun t =>
    match _getConnectedDevice target t with
    | (Some device, t') => resolve device t'
    | (None, t') => _connect target targetType t'
    end.

Definition _getCharacteristicIds (device : Device) : Promise (string * string) :=
  controlPointCharacteristicId <-
    call (GetCharacteristicId (instanceId device)
            DFU_SERVICE_UUID DFU_CONTROL_POINT_UUID)
         (deviceInfo_getCharacteristicId (instanceId device)
            DFU_SERVICE_UUID DFU_CONTROL_POINT_UUID) ;;
  packetCharacteristicId <-
    call (GetCharacteristicId (instanceId device)
            DFU_SERVICE_UUID DFU_PACKET_UUID)
         (deviceInfo_getCharacteristicId (instanceId device)
            DFU_SERVICE_UUID DFU_PACKET_UUID) ;;
  resolve (controlPointCharacteristicId, packetCharacteristicId).

Definition _startCharacteristicsNotifications (characteristicId : string)
  : Promise unit :=
  fun t =>
    let ack := false in
    let (error, w) :=
      adapter_startCharacteristicsNotifications characteristicId ack (world t) in
    let t' :=
      log (StartCharacteristicsNotifications characteristicId ack)
          (set_world w t) in
    match error with
    | Some err =>
        (Rejected (createError ErrorCode.NOTIFICATION_START_ERROR (message err)),
         t')
    | None => (Resolved tt, t')
    end.

Definition _setMtuSize (mtu : Z) : Promise unit :=
  call (WriterSetMtuSize mtu) (writer_setMtuSize mtu).

(** *** Promises that may stay pending

    [init] calls [_setPrn], which calls [init] again before
    [_isInitialized] is set; [None] stands for a chain that has not
    settled within the given number of nested [init] calls. *)

Definition Async (A : Type) : Type :=
  Transport Env -> option (Result A * Transport Env).

Definition settled {A} (p : Promise A) : Async A := fun t => Some (p t).

Definition athen {A B} (p : Async A) (f : A -> Async B) : Async B :=
  fun t =>
    match p t with
    | Some (Resolved a, t') => f a t'
    | Some (Rejected e, t') => Some (Rejected e, t')
    | None => None
    end.

(** [_setPrn], given the promise its call of [this.init()] returns. *)
Definition _setPrn_after {A} (init_ : Async A) (prn : Z) : Async unit :=
  athen init_ (fun _ =>
  settled (call (SetPRN prn) (controlPoint_setPRN prn) ;;
           call (WriterSetPrn prn) (writer_setPrn prn))).

(** [init()] resolves with [undefined] ([None]) when already initialized
    and with the value of the assignment, [true], at the end of the chain. *)
Fixpoint init (fuel : nat) (t : Transport Env) {struct fuel}
  : option (Result (option bool) * Transport Env) :=
  if _isInitialized t then Some (Resolved None, t)
  else
    match fuel with
    | O => None
    | S fuel' =>
        let target := targetAddress (_transportParameters t) in
        let targetType := targetAddressType (_transportParameters t) in
        let prnValue_ := prnValue (_transportParameters t) in
        let mtuSize_ := mtuSize (_transportParameters t) in
        athen (settled (
                 device <- _connectIfNeeded target targetType ;;
                 characteristicIds <- _getCharacteristicIds device ;;
                 let controlPointId := fst characteristicIds in
                 let packetId := snd characteristicIds in
                 (fun t1 =>
                    _startCharacteristicsNotifications controlPointId
                      (set_services controlPointId packetId t1))))
          (fun _ =>
        athen (match prnValue_ with
               | Some prn =>
                   if truthy prnValue_
                   then _setPrn_after (init fuel') prn
                   else settled (resolve tt)
               | None => settled (resolve tt)
               end)
          (fun _ =>
        settled (
          match mtuSize_ with
          | Some mtu =>
              if truthy mtuSize_ then _setMtuSize mtu else resolve tt
          | None => resolve tt
          end ;;
          (fun t2 => (Resolved (Some true), set_isInitialized true t2)))))
          t
    end.

Definition _setPrn (fuel : nat) (prn : Z) : Async unit :=
  _setPrn_after (init fuel) prn.

Definition getInitPacketState (fuel : nat) (data : bytes)
  : Async InitPacketState :=
  athen (init fuel) (fun _ =>
  settled (response <- call (SelectObject ObjectType.COMMAND)
                         (controlPoint_selectObject ObjectType.COMMAND) ;;
           fun t => (new_InitPacketState data response, t))).

Definition getFirmwareState (fuel : nat) (data : bytes)
  : Async FirmwareState :=
  athen (init fuel) (fun _ =>
  settled (response <- call (SelectObject ObjectType.DATA)
                         (controlPoint_selectObject ObjectType.DATA) ;;
           fun t => (new_FirmwareState data response, t))).

Definition sendInitPacket (fuel : nat) (data : bytes) : Async Progress :=
  fun t =>
    athen (getInitPacketState fuel data) (fun state =>
      if ip_isResumable state then
        settled (_writeObject (remainingData state) ObjectType.COMMAND
                   (ip_offset state) (ip_crc32 state))
      else
        settled (_createAndWriteObject (remainingData state)
                   ObjectType.COMMAND None None))
      (_emitInitializeEvent ObjectType.COMMAND t).

Definition sendFirmware (fuel : nat) (data : bytes) : Async Progress :=
  fun t =>
    athen (getFirmwareState fuel data) (fun state =>
      let startOffset := fw_offset state in
      let startCrc32 := fw_crc32 state in
      let objects := remainingObjects state in
      if fw_isResumable state then
        let partialObject := remainingPartialObject state in
        settled (progress <- _writeObject partialObject ObjectType.DATA
                               startOffset startCrc32 ;;
                 _createAndWriteObjects objects ObjectType.DATA
                   (offset progress) (crc32 progress))
      else
        settled (_createAndWriteObjects objects ObjectType.DATA
                   startOffset startCrc32))
      (_emitInitializeEvent ObjectType.DATA t).

(** [abort()].  Before [init] has created the object writer,
    [this._objectWriter] is undefined and the call throws a TypeError
    (an error without a code, with the message of the engine) without
    calling anything. *)
Definition abort (t : Transport Env) : Result unit * Transport Env :=
  match _objectWriter t with
  | Some _ => (Resolved tt, log WriterAbort (set_world (writer_abort (world t)) t))
  | None =>
      (Rejected {| code := None;
                   message := "Cannot read property 'abort' of undefined" |},
       t)
  end.

End Lifecycle.

(** ** dfuTransport.js: events from the adapter *)

Section AdapterEvents.

Context {Env : Type} `{Collaborators Env}.

Definition TIMEOUT_MS : Z := 10000.

(** The promise [waitForDisconnection] returns, with what its executor
    leaves behind: the [deviceDisconnected] listener (kept as the
    instance id its closure compares with) and the pending timer (kept
    as its delay). *)
Record Waiting := {
  outcome : option (Result unit);
  listener : option string;
  timer : option Z
}.

(** [resolve]/[reject] of an already settled promise change nothing. *)
Definition settle (r : Result unit) (o : option (Result unit))
  : option (Result unit) :=
  match o with
  | None => Some r
  | Some _ => o
  end.

Definition waitForDisconnection (t : Transport Env)
  : Waiting * Transport Env :=
  match _getConnectedDevice (targetAddress (_transportParameters t)) t with
  | (None, t') =>
      ({| outcome := settle (Resolved tt) None;
          listener := None; timer := None |}, t')
  | (Some connectedDevice_, t') =>
      ({| outcome := None;
          listener := Some (instanceId connectedDevice_);
          timer := Some TIMEOUT_MS |}, t')
  end.

(** What the runtime can deliver to a wait: a [deviceDisconnected] event
    of the adapter, or the expiry of the timer.  The clock is the
    runtime's: the model keeps the delay the timer was set with and
    takes the expiry as an event. *)
Inductive WaitEvent :=
| DeviceDisconnected (device : Device)
| TimerExpired.

(** [disconnectionHandler] and the timer callback.  A removed listener
    is not called and a cleared timer does not expire. *)
Definition deliver (w : Waiting) (ev : WaitEvent) : Waiting :=
  match ev with
  | DeviceDisconnected device =>
      match listener w with
      | Some connectedInstanceId =>
          if String.eqb (instanceId device) connectedInstanceId then
            {| outcome := settle (Resolved tt) (outcome w);
               listener := None;
               timer := None |}
          else w
      | None => w
      end
  | TimerExpired =>
      match timer w with
      | Some _ =>
          {| outcome :=
               settle (Rejected (createError ErrorCode.DISCONNECTION_TIMEOUT
                  "Timed out when waiting for target device to disconnect."))
                 (outcome w);
             listener := None;
             timer := None |}
      | None => w
      end
  end.

Definition deliver_all (w : Waiting) (evs : list WaitEvent) : Waiting :=
  fold_left deliver evs w.

(** [_handleConnParamUpdateRequest]: the first component is the error
    thrown inside the callback passed to [updateConnectionParameters],
    that is, thrown to the adapter that invokes the callback; no promise
    of the transport is involved. *)
Definition _handleConnParamUpdateRequest (device : Device)
  (connectionParameters : ConnectionParameters) (t : Transport Env)
  : option Error * Transport Env :=
  match _getConnectedDevice (targetAddress (_transportParameters t)) t with
  | (Some connectedDevice_, t') =>
      if String.eqb (instanceId connectedDevice_) (instanceId device) then
        let (err, w) :=
          adapter_updateConnectionParameters (instanceId device)
            connectionParameters (world t') in
        let t'' :=
          log (UpdateConnectionParameters (instanceId device)
                 connectionParameters)
              (set_world w t') in
        match err with
        | Some e =>
            (Some (createError ErrorCode.CONNECTION_PARAM_ERROR (message e)),
             t'')
        | None => (None, t'')
        end
      else (None, t')
  | (None, t') => (None, t')
  end.

End AdapterEvents.

(** ** A scripted target, for running the transport on examples

    The collaborators answer from a script, one reply per call; with no
    script left they proceed normally.  The target remembers what the
    writer delivered and reports it on [calculateChecksum] and
    [selectObject].  [checksum] is a stand-in for the CRC-32 of the
    real writer. *)

Module Scripted.

Inductive Reply :=
| Proceed
| Fail (e : Error)
| Misreport (p : Progress).

Record Env := {
  env_devices : Devices;
  script : list Reply;
  received : Progress
}.

Definition next (env : Env) : Reply * Env :=
  match script env with
  | [] => (Proceed, env)
  | r :: rest =>
      (r, {| env_devices := env_devices env; script := rest;
             received := received env |})
  end.

Definition checksum (start : jsnum) (data : bytes) : Z :=
  fold_left (fun acc b => (acc * 31 + Z.of_N (Byte.to_N b)) mod 4294967296)
    data (match start with Some c => c | None => 0 end).

Definition command {A} (a : Env -> A) (env : Env) : Result A * Env :=
  match next env with
  | (Fail e, env') => (Rejected e, env')
  | (_, env') => (Resolved (a env'), env')
  end.

Definition callback (env : Env) : option Error * Env :=
  match next env with
  | (Fail e, env') => (Some e, env')
  | (_, env') => (None, env')
  end.

Definition connect (addr : string) (env : Env) : Result Device * Env :=
  match next env with
  | (Fail e, env') => (Rejected e, env')
  | (_, env') =>
      let d := {| instanceId := addr ++ ".0"; address := addr;
                  connected := true |} in
      (Resolved d,
       {| env_devices := (env_devices env' ++ [(instanceId d, d)])%list;
          script := script env'; received := received env' |})
  end.

Definition write (data : bytes) (type : Z) (startOffset startCrc32 : jsnum)
  (env : Env) : (list PacketWritten * Result Progress) * Env :=
  match next env with
  | (Fail e, env') => (([], Rejected e), env')
  | (_, env') =>
      let p :=
        {| offset :=
             Some (match startOffset with Some o => o | None => 0 end
                   + Z.of_nat (List.length data));
           crc32 := Some (checksum startCrc32 data) |} in
      (([ {| pw_offset := offset p; pw_type := type |} ], Resolved p),
       {| env_devices := env_devices env'; script := script env';
          received := p |})
  end.

Definition report (env : Env) : Result Progress * Env :=
  match next env with
  | (Fail e, env') => (Rejected e, env')
  | (Misreport p, env') => (Resolved p, env')
  | (Proceed, env') => (Resolved (received env'), env')
  end.

Definition select (env : Env) : Result SelectResponse * Env :=
  match report env with
  | (Resolved p, env') =>
      (Resolved {| sel_offset := offset p; sel_crc32 := crc32 p;
                   maximumSize := Some 4 |}, env')
  | (Rejected e, env') => (Rejected e, env')
  end.

(** Whether the first [o] bytes of [data] have the reported checksum. *)
Definition resumable (data : bytes) (response : SelectResponse) : bool :=
  match sel_offset response, sel_crc32 response with
  | Some o, Some c =>
      Z.ltb 0 o && Z.leb o (Z.of_nat (List.length data))
      && Z.eqb (checksum None (firstn (Z.to_nat o) data)) c
  | _, _ => false
  end.

Fixpoint chunks (fuel size : nat) (data : bytes) : list bytes :=
  match fuel, data with
  | O, _ => []
  | _, [] => []
  | S fuel', _ => firstn size data :: chunks fuel' size (skipn size data)
  end.

Definition initPacketState (data : bytes) (response : SelectResponse)
  : Result InitPacketState :=
  match maximumSize response with
  | Some m =>
      if Z.ltb m (Z.of_nat (List.length data)) then
        Rejected (createError ErrorCode.INIT_PACKET_TOO_LARGE
                    "Init packet too large.")
      else if resumable data response then
        Resolved {| ip_isResumable := true;
                    remainingData :=
                      skipn (Z.to_nat (match sel_offset response with
                                       | Some o => o | None => 0 end)) data;
                    ip_offset := sel_offset response;
                    ip_crc32 := sel_crc32 response |}
      else
        Resolved {| ip_isResumable := false; remainingData := data;
                    ip_offset := Some 0; ip_crc32 := None |}
  | None => Rejected {| code := None; message := "No maximum size." |}
  end.

Definition firmwareState (data : bytes) (response : SelectResponse)
  : Result FirmwareState :=
  match maximumSize response with
  | Some m =>
      let size := Z.to_nat m in
      if resumable data response then
        let o := Z.to_nat (match sel_offset response with
                           | Some o => o | None => 0 end) in
        let boundary := ((o + size - 1) / size * size)%nat in
        Resolved {| fw_isResumable := true;
                    fw_offset := sel_offset response;
                    fw_crc32 := sel_crc32 response;
                    remainingObjects :=
                      chunks (List.length data) size (skipn boundary data);
                    remainingPartialObject :=
                      firstn (boundary - o) (skipn o data) |}
      else
        Resolved {| fw_isResumable := false;
                    fw_offset := Some 0; fw_crc32 := None;
                    remainingObjects := chunks (List.length data) size data;
                    remainingPartialObject := [] |}
  | None => Rejected {| code := None; message := "No maximum size." |}
  end.

#[export] Instance collaborators : Collaborators Env := {
  adapter_getDevices := env_devices;
  adapter_connect := fun addr _ _ _ => connect addr;
  adapter_startCharacteristicsNotifications := fun _ _ => callback;
  adapter_updateConnectionParameters := fun _ _ => callback;
  deviceInfo_getCharacteristicId := fun _ _ uuid => command (fun _ => uuid);
  controlPoint_selectObject := fun _ => select;
  controlPoint_createObject := fun _ _ => command (fun _ => tt);
  controlPoint_calculateChecksum := report;
  controlPoint_execute := command (fun _ => tt);
  controlPoint_setPRN := fun _ => command (fun _ => tt);
  writer_writeObject := write;
  writer_setPrn := fun _ => command (fun _ => tt);
  writer_setMtuSize := fun _ => command (fun _ => tt);
  writer_abort := fun env => env;
  new_InitPacketState := initPacketState;
  new_FirmwareState := firmwareState
}.

Definition target : string := "C0:FF:EE:00:00:01".

Definition peer : Device :=
  {| instanceId := "C0:FF:EE:00:00:01.0"; address := target;
     connected := true |}.

Definition parameters : TransportParameters :=
  {| targetAddress := target; targetAddressType := "BLE_GAP_ADDR_TYPE_RANDOM_STATIC";
     prnValue := None; mtuSize := None |}.

(** A transport on a target that holds [received] and answers from
    [replies]. *)
Definition transport (devs : Devices) (replies : list Reply)
  (have : Progress) (initialized : bool) : Transport Env :=
  {| world := {| env_devices := devs; script := replies; received := have |};
     _transportParameters := parameters;
     _isInitialized := initialized;
     _controlPointService := None;
     _objectWriter := None;
     calls := [];
     progressUpdates := [] |}.

Definition nothing : Progress := {| offset := Some 0; crc32 := Some 0 |}.

Definition commandError : Error :=
  createError ErrorCode.COMMAND_ERROR "Operation failed.".

Definition object : bytes := [Byte.x01; Byte.x02; Byte.x03].

Definition firmware : bytes :=
  [Byte.x01; Byte.x02; Byte.x03; Byte.x04; Byte.x05;
   Byte.x06; Byte.x07; Byte.x08; Byte.x09; Byte.x0a].

(** The target already holds the first two bytes of [firmware]. *)
Definition two_bytes : Progress :=
  {| offset := Some 2; crc32 := Some (checksum None [Byte.x01; Byte.x02]) |}.

Definition requested : ConnectionParameters :=
  {| min_conn_interval := 15 # 1; max_conn_interval := 30 # 1;
     slave_latency := 0; conn_sup_timeout := 4000 # 1 |}.

End Scripted.

(** ** Definitions the statements use *)

Section Statements.

Context {Env : Type} `{Collaborators Env}.

Local Open Scope promise_scope.

(** The [progressUpdate] event of one written packet. *)
Definition transfer_event (progress : PacketWritten) : ProgressEvent :=
  {| stage := "Transferring " ++ _getObjectTypeString (pw_type progress);
     event_offset :=
       if Z.eqb (pw_type progress) ObjectType.DATA
       then Some (pw_offset progress) else None |}.

(** An error after which [_shouldRetry] may ask for another attempt. *)
Definition retryable (e : Error) : Prop :=
  code e <> Some ErrorCode.ABORTED
  /\ code e <> Some ErrorCode.NOTIFICATION_TIMEOUT.

(** The transport after [k] attempts at one object, whatever their
    results. *)
Definition after_attempts (data : bytes) (type : Z)
  (startOffset startCrc32 : jsnum) (k : nat) (t : Transport Env)
  : Transport Env :=
  Nat.iter k (fun s => snd (attempt data type startOffset startCrc32 s)) t.

(** A fold over the objects in their order, each step starting from the
    progress the step before produced. *)
Fixpoint sequential_fold (objects : list bytes) (type : Z)
  (progress : Progress) : Promise Progress :=
  match objects with
  | [] => resolve progress
  | object :: rest =>
      progress' <- _createAndWriteObject object type
                     (offset progress) (crc32 progress) ;;
      sequential_fold rest type progress'
  end.

(** Modelled from the spec: [dfuModels.js] is not among the sources; the
    resume-state calculator marks a transfer resumable only with the
    start offset and crc set to the ones the device reported. *)
Definition resume_position_reported : Prop :=
  (forall data response state,
      new_FirmwareState data response = Resolved state ->
      fw_isResumable state = true ->
      fw_offset state = sel_offset response
      /\ fw_crc32 state = sel_crc32 response)
  /\ (forall data response state,
      new_InitPacketState data response = Resolved state ->
      ip_isResumable state = true ->
      ip_offset state = sel_offset response
      /\ ip_crc32 state = sel_crc32 response).

Definition is_CreateObject (c : Call) : bool :=
  match c with
  | CreateObject _ _ => true
  | _ => false
  end.

Definition is_WriteObject (c : Call) : bool :=
  match c with
  | WriteObject _ _ _ _ => true
  | _ => false
  end.

(** Calls on one object only: whatever creates an object creates it
    with this type and size, and whatever writes one writes this data
    from this start. *)
Definition same_object (data : bytes) (type : Z)
  (startOffset startCrc32 : jsnum) (delta : list Call) : Prop :=
  Forall (fun c =>
            (is_CreateObject c = true ->
             c = CreateObject type (List.length data))
            /\ (is_WriteObject c = true ->
                c = WriteObject data type startOffset startCrc32))
         delta.

(** A promise that leaves [_isInitialized] and the transport parameters
    as they are. *)
Definition framed {A} (p : @Promise Env A) : Prop :=
  forall t : Transport Env,
    _isInitialized (snd (p t)) = _isInitialized t
    /\ _transportParameters (snd (p t)) = _transportParameters t.

(** The states a wait can be left in. *)
Definition resolved_wait : Waiting :=
  {| outcome := Some (Resolved tt); listener := None; timer := None |}.

Definition timed_out_wait : Waiting :=
  {| outcome :=
       Some (Rejected (createError ErrorCode.DISCONNECTION_TIMEOUT
               "Timed out when waiting for target device to disconnect."));
     listener := None; timer := None |}.

Definition pending_wait (connectedInstanceId : string) : Waiting :=
  {| outcome := None; listener := Some connectedInstanceId;
     timer := Some 10000 |}.

(** The event that ends a wait for the device [connectedInstanceId]. *)
Definition decisive (connectedInstanceId : string) (ev : WaitEvent) : bool :=
  match ev with
  | DeviceDisconnected device =>
      String.eqb (instanceId device) connectedInstanceId
  | TimerExpired => true
  end.

End Statements.

(** ** dfuConstants.js: names of codes *)

(** The frozen objects, as their entries in key order. *)
Definition ControlPointOpcode_object : list (string * Z) :=
  [("CREATE", ControlPointOpcode.CREATE);
   ("SET_PRN", ControlPointOpcode.SET_PRN);
   ("CALCULATE_CRC", ControlPointOpcode.CALCULATE_CRC);
   ("EXECUTE", ControlPointOpcode.EXECUTE);
   ("SELECT", ControlPointOpcode.SELECT);
   ("RESPONSE", ControlPointOpcode.RESPONSE)].

Definition ResultCode_object : list (string * Z) :=
  [("INVALID_CODE", ResultCode.INVALID_CODE);
   ("SUCCESS", ResultCode.SUCCESS);
   ("OPCODE_NOT_SUPPORTED", ResultCode.OPCODE_NOT_SUPPORTED);
   ("INVALID_PARAMETER", ResultCode.INVALID_PARAMETER);
   ("INSUFFICIENT_RESOURCES", ResultCode.INSUFFICIENT_RESOURCES);
   ("INVALID_OBJECT", ResultCode.INVALID_OBJECT);
   ("UNSUPPORTED_TYPE", ResultCode.UNSUPPORTED_TYPE);
   ("OPERATION_NOT_PERMITTED", ResultCode.OPERATION_NOT_PERMITTED);
   ("OPERATION_FAILED", ResultCode.OPERATION_FAILED)].

(** [result[k] = v] on an object keyed by numbers: an existing key keeps
    its place and gets the new value. *)
Fixpoint object_set (result : list (Z * string)) (k : Z) (v : string)
  : list (Z * string) :=
  match result with
  | [] => [(k, v)]
  | (k', v') :: rest =>
      if Z.eqb k' k then (k, v) :: rest else (k', v') :: object_set rest k v
  end.

Fixpoint object_get (result : list (Z * string)) (k : Z) : option string :=
  match result with
  | [] => None
  | (k', v) :: rest => if Z.eqb k' k then Some v else object_get rest k
  end.

(** [_.invert(obj)]: for each key in order, [result[obj[key]] = key]. *)
Definition _invert (obj : list (string * Z)) : list (Z * string) :=
  fold_left (fun result entry => object_set result (snd entry) (fst entry))
    obj [].

(** [_.invert(codeObject)[value] || 'UNKNOWN']; the empty string is
    falsy. *)
Definition _getCodeName (codeObject : list (string * Z)) (value : Z)
  : string :=
  match object_get (_invert codeObject) value with
  | Some name => if String.eqb name "" then "UNKNOWN" else name
  | None => "UNKNOWN"
  end.

Definition getResultCodeName (resultCode : Z) : string :=
  _getCodeName ResultCode_object resultCode.

Definition getOpCodeName (opCode : Z) : string :=
  _getCodeName ControlPointOpcode_object opCode.

(** ** Definitions the further statements use *)

Section FurtherStatements.

Context {Env : Type} `{Collaborators Env}.

Local Open Scope list_scope.

(** What a transfer may do to the transport: it keeps the fields, adds
    calls and adds events of written packets. *)
Definition transfer_step (t t' : Transport Env) : Prop :=
  _isInitialized t' = _isInitialized t
  /\ _transportParameters t' = _transportParameters t
  /\ _controlPointService t' = _controlPointService t
  /\ _objectWriter t' = _objectWriter t
  /\ (exists cs, calls t' = calls t ++ cs)
  /\ (exists packets,
        progressUpdates t' = progressUpdates t ++ map transfer_event packets).

Definition transfers {A} (p : @Promise Env A) : Prop :=
  forall t : Transport Env, transfer_step t (snd (p t)).

(** What setting up may do: it keeps the parameters, emits nothing and
    adds calls. *)
Definition setup_step (t t' : Transport Env) : Prop :=
  _transportParameters t' = _transportParameters t
  /\ progressUpdates t' = progressUpdates t
  /\ (exists cs, calls t' = calls t ++ cs).

(** Setting up that also keeps [_isInitialized]. *)
Definition quiet {A} (p : @Promise Env A) : Prop :=
  forall t : Transport Env,
    _isInitialized (snd (p t)) = _isInitialized t
    /\ setup_step t (snd (p t)).

(** The createObject calls of a run over [objects] in which the i-th
    object took the i-th number of attempts. *)
Definition create_calls (type : Z) (objects : list bytes) (counts : list nat)
  : list Call :=
  List.concat
    (map (fun oc => repeat (CreateObject type (List.length (fst oc))) (snd oc))
         (combine objects counts)).

(** The event [sendInitPacket] and [sendFirmware] start with. *)
Definition initialize_event (type : Z) : ProgressEvent :=
  {| stage := ("Initializing " ++ _getObjectTypeString type)%string;
     event_offset := None |}.


End FurtherStatements.

(** ** Further inputs for the scripted target *)

Module Inputs.

Import Scripted.

(** A code object in which two keys hold the same value. *)
Definition codes : list (string * Z) := [("A", 1); ("B", 1); ("C", 2)].

(** An entry left behind for the target address, not connected. *)
Definition stale : Device :=
  {| instanceId := "C0:FF:EE:00:00:01.1"; address := target;
     connected := false |}.

(** A transport configured with packet receipt notifications. *)
Definition with_prn : Transport Env :=
  {| world := {| env_devices := []; script := []; received := nothing |};
     _transportParameters :=
       {| targetAddress := target;
          targetAddressType := "BLE_GAP_ADDR_TYPE_RANDOM_STATIC";
          prnValue := Some 5; mtuSize := None |};
     _isInitialized := false;
     _controlPointService := None;
     _objectWriter := None;
     calls := [];
     progressUpdates := [] |}.

Definition aborted : Error := createError ErrorCode.ABORTED "Aborted.".

End Inputs.

(** * Properties *)

(** ** Constants *)

(** C9.  The opcodes, result codes and object types have the values of
    the wire format: Create 0x01, SetPRN 0x02, CalculateChecksum 0x03,
    Execute 0x04, Select 0x06, Response 0x60; Success 0x01,
    OpcodeNotSupported 0x02, InvalidParameter 0x03, InsufficientResources
    0x04, InvalidObject 0x05, UnsupportedType 0x07, OperationNotPermitted
    0x08, OperationFailed 0x0A; Command 0x01, Data 0x02. *)
Theorem wire_constants :
  [ControlPointOpcode.CREATE; ControlPointOpcode.SET_PRN;
   ControlPointOpcode.CALCULATE_CRC; ControlPointOpcode.EXECUTE;
   ControlPointOpcode.SELECT; ControlPointOpcode.RESPONSE]
  = [1; 2; 3; 4; 6; 96]
  /\ [ResultCode.SUCCESS; ResultCode.OPCODE_NOT_SUPPORTED;
      ResultCode.INVALID_PARAMETER; ResultCode.INSUFFICIENT_RESOURCES;
      ResultCode.INVALID_OBJECT; ResultCode.UNSUPPORTED_TYPE;
      ResultCode.OPERATION_NOT_PERMITTED; ResultCode.OPERATION_FAILED]
     = [1; 2; 3; 4; 5; 7; 8; 10]
  /\ [ObjectType.COMMAND; ObjectType.DATA] = [1; 2].
Proof. repeat split. Qed.

(** ** Comparison of reported numbers *)

Lemma jsnum_eqb_eq (a b : jsnum) : jsnum_eqb a b = true <-> a = b.
Proof.
  destruct a as [x |], b as [y |]; simpl; split; intro E;
    try discriminate; try reflexivity.
  - apply Z.eqb_eq in E. now subst.
  - injection E as ->. apply Z.eqb_refl.
Qed.

Lemma jsnum_eqb_neq (a b : jsnum) : jsnum_eqb a b = false <-> a <> b.
Proof.
  split.
  - intros E F. apply jsnum_eqb_eq in F. congruence.
  - intro N. destruct (jsnum_eqb a b) eqn:E; [| reflexivity].
    apply jsnum_eqb_eq in E. contradiction.
Qed.

Section TransferProperties.

Context {Env : Type} `{Collaborators Env}.

Local Open Scope list_scope.

(** ** The post-write cross-check *)

(** What [_validateProgress] does with the device's answer. *)
Lemma _validateProgress_run (progressInfo : Progress) (t : Transport Env) :
  _validateProgress progressInfo t =
  let (checked, w) := controlPoint_calculateChecksum (world t) in
  let t' := log CalculateChecksum (set_world w t) in
  match checked with
  | Rejected e => (Rejected e, t')
  | Resolved response =>
      if jsnum_eqb (offset progressInfo) (offset response) then
        if jsnum_eqb (crc32 progressInfo) (crc32 response) then
          (Resolved tt, t')
        else
          (Rejected (createError ErrorCode.INVALID_CRC
             ("Error when validating CRC. Got " ++ show (crc32 response) ++
              ", but expected " ++ show (crc32 progressInfo) ++ "."))%string,
           t')
      else
        (Rejected (createError ErrorCode.INVALID_OFFSET
           ("Error when validating offset. Got " ++ show (offset response) ++
            ", but expected " ++ show (offset progressInfo) ++ "."))%string,
         t')
  end.
Proof.
  unfold _validateProgress, then_, call.
  destruct (controlPoint_calculateChecksum (world t)) as [[response | e] w];
    [| reflexivity].
  destruct (jsnum_eqb (offset progressInfo) (offset response));
    [| reflexivity].
  destruct (jsnum_eqb (crc32 progressInfo) (crc32 response)); reflexivity.
Qed.

(** C10.  For every device response, an offset that differs from the
    writer's gives InvalidOffset whatever the crc is; InvalidCrc is given
    exactly when the offsets agree and the crc values differ; when both
    agree the check passes. *)
Theorem _validateProgress_offset_before_crc
  (progressInfo response : Progress) (t : Transport Env) (w : Env) :
  controlPoint_calculateChecksum (world t) = (Resolved response, w) ->
  let r := fst (_validateProgress progressInfo t) in
  (offset progressInfo <> offset response ->
     exists msg, r = Rejected (createError ErrorCode.INVALID_OFFSET msg))
  /\ (offset progressInfo = offset response ->
      crc32 progressInfo <> crc32 response ->
      exists msg, r = Rejected (createError ErrorCode.INVALID_CRC msg))
  /\ (offset progressInfo = offset response ->
      crc32 progressInfo = crc32 response -> r = Resolved tt)
  /\ (forall e, r = Rejected e -> code e = Some ErrorCode.INVALID_CRC ->
      offset progressInfo = offset response
      /\ crc32 progressInfo <> crc32 response).
Proof.
  intros Hdev r. subst r. rewrite _validateProgress_run, Hdev.
  destruct (jsnum_eqb (offset progressInfo) (offset response)) eqn:Eo;
    [destruct (jsnum_eqb (crc32 progressInfo) (crc32 response)) eqn:Ec |];
    simpl;
    rewrite ?jsnum_eqb_eq, ?jsnum_eqb_neq in *;
    repeat split; intros;
    try contradiction; try congruence; eauto;
    match goal with
    | E : Rejected _ = Rejected ?e, C : code ?e = Some _ |- _ =>
        injection E as <-; discriminate C
    end.
Qed.

(** ** Events of written packets *)

Lemma _emitTransferEvent_event (progress : PacketWritten) (t : Transport Env) :
  on_packetWritten t progress = emit [transfer_event progress] t.
Proof.
  unfold on_packetWritten, _emitTransferEvent, transfer_event.
  destruct (Z.eqb (pw_type progress) ObjectType.DATA); reflexivity.
Qed.

Lemma packets_written (packets : list PacketWritten) (t : Transport Env) :
  let t' := fold_left on_packetWritten packets t in
  world t' = world t
  /\ calls t' = calls t
  /\ _isInitialized t' = _isInitialized t
  /\ _transportParameters t' = _transportParameters t
  /\ progressUpdates t' = progressUpdates t ++ map transfer_event packets.
Proof.
  revert t. induction packets as [| p packets IH]; intro t; simpl.
  - rewrite app_nil_r. repeat split.
  - destruct (IH (on_packetWritten t p)) as (Hw & Hc & Hi & Hp & He).
    rewrite Hw, Hc, Hi, Hp, He, _emitTransferEvent_event. simpl.
    rewrite <- app_assoc. repeat split.
Qed.

(** C6.  The progressUpdate events of a write are one per written
    packet, in order; each carries the stage label of its object type,
    and carries an offset (the packet's) exactly when the type is Data;
    for a Command packet the event is the bare init packet label. *)
Theorem progressUpdate_offset_only_for_data
  (data : bytes) (type : Z) (startOffset startCrc32 : jsnum)
  (t : Transport Env) :
  let packets :=
    fst (fst (writer_writeObject data type startOffset startCrc32 (world t))) in
  let t' := snd (objectWriter_writeObject data type startOffset startCrc32 t) in
  exists events,
    progressUpdates t' = progressUpdates t ++ events
    /\ Forall2
         (fun progress event =>
            stage event
            = ("Transferring " ++ _getObjectTypeString (pw_type progress))%string
            /\ (event_offset event <> None
                <-> pw_type progress = ObjectType.DATA)
            /\ (pw_type progress = ObjectType.DATA ->
                event = {| stage := "Transferring firmware";
                           event_offset := Some (pw_offset progress) |})
            /\ (pw_type progress = ObjectType.COMMAND ->
                event = {| stage := "Transferring init packet";
                           event_offset := None |}))
         packets events.
Proof.
  intros packets t'. subst packets t'. unfold objectWriter_writeObject.
  destruct (writer_writeObject data type startOffset startCrc32 (world t))
    as [[packets r] w]. simpl.
  exists (map transfer_event packets). split.
  - destruct (packets_written packets
                (log (WriteObject data type startOffset startCrc32)
                     (set_world w t))) as (_ & _ & _ & _ & He).
    exact He.
  - clear. induction packets as [| p packets IH]; cbn [map]; constructor;
      trivial.
    unfold transfer_event. cbn [stage event_offset].
    split; [reflexivity |]. split; [| split].
    + destruct (Z.eqb_spec (pw_type p) ObjectType.DATA); split; intro;
        congruence.
    + intros E. rewrite E. reflexivity.
    + intros E. rewrite E. reflexivity.
Qed.

(** ** Writing one object *)

Lemma objectWriter_writeObject_run
  (data : bytes) (type : Z) (startOffset startCrc32 : jsnum)
  (t : Transport Env) :
  let '((_, written), w) :=
    writer_writeObject data type startOffset startCrc32 (world t) in
  let '(r, t') := objectWriter_writeObject data type startOffset startCrc32 t in
  r = written /\ world t' = w
  /\ calls t' = calls t ++ [WriteObject data type startOffset startCrc32]
  /\ _isInitialized t' = _isInitialized t
  /\ _transportParameters t' = _transportParameters t.
Proof.
  unfold objectWriter_writeObject.
  destruct (writer_writeObject data type startOffset startCrc32 (world t))
    as [[packets r] w].
  destruct (packets_written packets
              (log (WriteObject data type startOffset startCrc32)
                   (set_world w t))) as (Hw & Hc & Hi & Hp & _).
  rewrite Hw, Hc, Hi, Hp. repeat split.
Qed.

(** The calls of one [_writeObject]: the write, then the checksum
    request when the write completed, then [execute] when the report
    agreed with the writer. *)
Lemma _writeObject_calls
  (data : bytes) (type : Z) (startOffset startCrc32 : jsnum)
  (t : Transport Env) :
  exists tail,
    calls (snd (_writeObject data type startOffset startCrc32 t))
    = calls t ++ WriteObject data type startOffset startCrc32 :: tail
    /\ (tail = [] \/ tail = [CalculateChecksum]
        \/ tail = [CalculateChecksum; Execute]).
Proof.
  unfold _writeObject. unfold then_ at 1.
  pose proof (objectWriter_writeObject_run data type startOffset startCrc32 t)
    as Hrun.
  destruct (writer_writeObject data type startOffset startCrc32 (world t))
    as [[packets written] w].
  destruct (objectWriter_writeObject data type startOffset startCrc32 t)
    as [r t1].
  destruct Hrun as (-> & Hw & Hc & _).
  destruct written as [progress | e]; simpl.
  - unfold then_ at 1. rewrite _validateProgress_run.
    destruct (controlPoint_calculateChecksum (world t1))
      as [[response | e] w2]; simpl.
    + destruct (jsnum_eqb (offset progress) (offset response));
        [destruct (jsnum_eqb (crc32 progress) (crc32 response)) |]; simpl.
      * unfold then_, call, resolve. simpl.
        destruct (controlPoint_execute w2) as [[[] | e] w3]; simpl;
          rewrite Hc, <- !app_assoc; (eexists; split; [reflexivity | auto]).
      * rewrite Hc, <- !app_assoc; (eexists; split; [reflexivity | auto]).
      * rewrite Hc, <- !app_assoc; (eexists; split; [reflexivity | auto]).
    + rewrite Hc, <- !app_assoc; (eexists; split; [reflexivity | auto]).
  - rewrite Hc. eexists; split; [reflexivity | auto].
Qed.

(** C2.  In every [_writeObject], once the writer's write completes the
    device is asked for its checksum and the reported offset and crc are
    compared with the writer's progress; a differing offset fails with
    InvalidOffset and a differing crc with InvalidCrc, with no [execute]
    issued; [execute] is issued only after the report agreed, and then
    the writer's progress is the result if [execute] succeeds. *)
Theorem _writeObject_cross_check
  (data : bytes) (type : Z) (startOffset startCrc32 : jsnum)
  (t : Transport Env) :
  let '((_, written), w1) :=
    writer_writeObject data type startOffset startCrc32 (world t) in
  let '(r, t') := _writeObject data type startOffset startCrc32 t in
  exists tail,
    calls t' = calls t ++ WriteObject data type startOffset startCrc32 :: tail
    /\ (forall e, written = Rejected e -> r = Rejected e /\ tail = [])
    /\ (forall progress, written = Resolved progress ->
        let (checked, w2) := controlPoint_calculateChecksum w1 in
        exists tail',
          tail = CalculateChecksum :: tail'
          /\ (forall e, checked = Rejected e -> r = Rejected e /\ tail' = [])
          /\ (forall response, checked = Resolved response ->
              (offset progress <> offset response ->
               tail' = []
               /\ exists msg,
                    r = Rejected (createError ErrorCode.INVALID_OFFSET msg))
              /\ (offset progress = offset response ->
                  crc32 progress <> crc32 response ->
                  tail' = []
                  /\ exists msg,
                       r = Rejected (createError ErrorCode.INVALID_CRC msg))
              /\ (offset progress = offset response ->
                  crc32 progress = crc32 response ->
                  tail' = [Execute]
                  /\ r = match fst (controlPoint_execute w2) with
                         | Resolved _ => Resolved progress
                         | Rejected e => Rejected e
                         end)))
    /\ (In Execute tail ->
        exists progress response w2,
          written = Resolved progress
          /\ controlPoint_calculateChecksum w1 = (Resolved response, w2)
          /\ offset progress = offset response
          /\ crc32 progress = crc32 response
          /\ tail = [CalculateChecksum; Execute]).
Proof.
  unfold _writeObject. unfold then_ at 1.
  pose proof (objectWriter_writeObject_run data type startOffset startCrc32 t)
    as Hrun.
  destruct (writer_writeObject data type startOffset startCrc32 (world t))
    as [[packets written] w1].
  destruct (objectWriter_writeObject data type startOffset startCrc32 t)
    as [r0 t1].
  destruct Hrun as (-> & Hw & Hc & _).
  destruct written as [progress | e].
  - unfold then_ at 1. rewrite _validateProgress_run, Hw.
    destruct (controlPoint_calculateChecksum w1) as [checked w2] eqn:Hsum.
    destruct checked as [response | e].
    + destruct (jsnum_eqb (offset progress) (offset response)) eqn:Eo;
        [destruct (jsnum_eqb (crc32 progress) (crc32 response)) eqn:Ec |];
        rewrite ?jsnum_eqb_eq, ?jsnum_eqb_neq in *.
      * unfold then_, call, resolve. cbn [world set_world log].
        destruct (controlPoint_execute w2) as [[[] | e] w3];
          cbn [fst snd calls log set_world]; rewrite Hc, <- !app_assoc;
          (exists [CalculateChecksum; Execute]; split; [reflexivity |];
           split; [discriminate |]; split;
           [ intros p [= <-]; exists [Execute]; split; [reflexivity |];
             split; [discriminate |];
             intros resp [= <-]; repeat split; congruence
           | intros _; exists progress, response, w2; repeat split; assumption ]).
      * cbn [fst snd calls log set_world]. rewrite Hc, <- !app_assoc.
        exists [CalculateChecksum]. split; [reflexivity |].
        split; [discriminate |]. split.
        -- intros p [= <-]. exists []. split; [reflexivity |].
           split; [discriminate |].
           intros resp [= <-]. repeat split; try congruence; eauto.
        -- intros [F | []]; discriminate F.
      * cbn [fst snd calls log set_world]. rewrite Hc, <- !app_assoc.
        exists [CalculateChecksum]. split; [reflexivity |].
        split; [discriminate |]. split.
        -- intros p [= <-]. exists []. split; [reflexivity |].
           split; [discriminate |].
           intros resp [= <-]. repeat split; try congruence; eauto.
        -- intros [F | []]; discriminate F.
    + cbn [fst snd calls log set_world]. rewrite Hc, <- !app_assoc.
      exists [CalculateChecksum]. split; [reflexivity |].
      split; [discriminate |]. split.
      * intros p [= <-]. exists []. split; [reflexivity |].
        split; [intros e' [= <-]; split; reflexivity | discriminate].
      * intros [F | []]; discriminate F.
  - exists []. split; [exact Hc |].
    split; [intros e' [= <-]; split; reflexivity |].
    split; [discriminate | intros []].
Qed.

(** ** Retrying one object *)

Lemma code_differs_spec (e : Error) (c : Z) :
  code_differs e c = true <-> code e <> Some c.
Proof.
  unfold code_differs. destruct (code e) as [x |].
  - destruct (Z.eqb_spec x c); simpl; split; congruence.
  - split; [discriminate | reflexivity].
Qed.

Lemma _shouldRetry_spec (attempts : nat) (e : Error) :
  _shouldRetry attempts e = true
  <-> (attempts < MAX_RETRIES)%nat /\ retryable e.
Proof.
  unfold _shouldRetry, retryable.
  rewrite <- !code_differs_spec.
  destruct (Nat.ltb_spec attempts MAX_RETRIES);
    destruct (code_differs e ErrorCode.ABORTED);
    destruct (code_differs e ErrorCode.NOTIFICATION_TIMEOUT); simpl;
    intuition (try discriminate; try lia).
Qed.

Section Retry.

Variables (data : bytes) (type : Z) (startOffset startCrc32 : jsnum).

Local Abbreviation try_ := (attempt data type startOffset startCrc32).
Local Abbreviation before := (after_attempts data type startOffset startCrc32).

Lemma tryWrite_step (attempts : nat) (t : Transport Env) :
  tryWrite data type startOffset startCrc32 attempts t =
  match try_ t with
  | (Resolved progress, t') => (Resolved progress, t')
  | (Rejected error, t') =>
      if _shouldRetry (S attempts) error
      then tryWrite data type startOffset startCrc32 (S attempts) t'
      else (Rejected error, t')
  end.
Proof.
  rewrite tryWrite_unfold_eq. unfold tryWrite_unfold.
  destruct (attempt data type startOffset startCrc32 t) as [[p | e] t'];
    cbn; [reflexivity |].
  unfold Logic.inspect.
  assert (G : forall b0 (E : _shouldRetry (S attempts) e = b0),
             (if b0 as b
                 return _shouldRetry (S attempts) e = b ->
                        Transport Env -> Result Progress * Transport Env
              then fun _ t'0 =>
                     tryWrite data type startOffset startCrc32 (S attempts) t'0
              else fun _ t'0 => (Rejected e, t'0)) E t'
             = if b0
               then tryWrite data type startOffset startCrc32 (S attempts) t'
               else (Rejected e, t'))
    by (intros [|] E; reflexivity).
  exact (G _ eq_refl).
Qed.

Lemma attempt_calls (t : Transport Env) :
  exists tail,
    calls (snd (try_ t)) = calls t ++ CreateObject type (List.length data) :: tail
    /\ filter is_CreateObject tail = []
    /\ same_object data type startOffset startCrc32 tail.
Proof.
  unfold attempt, then_, call.
  destruct (controlPoint_createObject type (List.length data) (world t))
    as [[[] | e] w]; cbn [snd].
  - destruct (_writeObject_calls data type startOffset startCrc32
                (log (CreateObject type (List.length data)) (set_world w t)))
      as (tail & Hc & Ht).
    rewrite Hc. cbn [calls log set_world]. rewrite <- app_assoc.
    eexists. split; [reflexivity |].
    unfold same_object.
    destruct Ht as [-> | [-> | ->]]; split; try reflexivity;
      repeat constructor; try discriminate.
  - cbn [calls log set_world]. exists []. repeat split. constructor.
Qed.

Lemma before_succ (k : nat) (t : Transport Env) :
  before (S k) t = before k (snd (try_ t)).
Proof.
  unfold after_attempts. rewrite Nat.iter_succ_r. reflexivity.
Qed.

Lemma tryWrite_attempts (d attempts : nat) (t : Transport Env) :
  (attempts + d = MAX_RETRIES)%nat -> (0 < d)%nat ->
  exists n,
    (1 <= n <= d)%nat
    /\ (forall k, (S k < n)%nat ->
        exists e, fst (try_ (before k t)) = Rejected e /\ retryable e)
    /\ tryWrite data type startOffset startCrc32 attempts t
       = try_ (before (n - 1) t)
    /\ (forall e, fst (try_ (before (n - 1) t)) = Rejected e ->
        retryable e -> n = d)
    /\ exists delta,
         calls (snd (tryWrite data type startOffset startCrc32 attempts t))
         = calls t ++ delta
         /\ List.length (filter is_CreateObject delta) = n
         /\ same_object data type startOffset startCrc32 delta.
Proof.
  revert attempts t.
  induction d as [| d IH]; intros attempts t Hsum Hpos; [lia |].
  rewrite tryWrite_step.
  destruct (attempt_calls t) as (tail & Hcalls & Hnone & Hsame).
  assert (Hone :
            List.length
              (filter is_CreateObject
                 (CreateObject type (List.length data) :: tail)) = 1%nat)
    by (cbn [filter is_CreateObject]; rewrite Hnone; reflexivity).
  assert (Hsame1 : same_object data type startOffset startCrc32
              (CreateObject type (List.length data) :: tail))
    by (constructor; [split; [reflexivity | discriminate] | exact Hsame]).
  destruct (try_ t) as [[p | e] t'] eqn:Htry; cbn [snd] in Hcalls.
  - exists 1%nat. cbn [Nat.sub]. change (before 0%nat t) with t.
    rewrite Htry. cbn [fst snd].
    repeat split; try lia; try discriminate. eauto.
  - destruct (_shouldRetry (S attempts) e) eqn:Hretry.
    + apply _shouldRetry_spec in Hretry. destruct Hretry as [Hlt Hre].
      destruct (IH (S attempts) t') as (n & Hn & Hfail & Hrun & Hlast & Hd);
        [lia | lia |].
      destruct Hd as (delta & Hdc & Hdn & Hds).
      assert (Hb : forall k, before (S k) t = before k t')
        by (intro k; rewrite before_succ, Htry; reflexivity).
      exists (S n). split; [lia |]. split; [| split; [| split]].
      * intros [| k] Hk.
        -- exists e. change (before 0%nat t) with t.
           rewrite Htry. split; [reflexivity | exact Hre].
        -- rewrite Hb. apply Hfail. lia.
      * replace (S n - 1)%nat with (S (n - 1)) by lia. rewrite Hb. exact Hrun.
      * replace (S n - 1)%nat with (S (n - 1)) by lia. rewrite Hb.
        intros e' He' Hre'. f_equal. eapply Hlast; eassumption.
      * exists ((CreateObject type (List.length data) :: tail) ++ delta).
        rewrite Hdc, Hcalls, <- app_assoc. split; [reflexivity |].
        split.
        -- rewrite filter_app, length_app, Hone, Hdn. reflexivity.
        -- apply Forall_app. split; assumption.
    + exists 1%nat. cbn [Nat.sub]. change (before 0%nat t) with t.
      rewrite Htry. cbn [fst snd].
      split; [lia |]. split; [intros k Hk; lia |].
      split; [reflexivity |]. split.
      * intros e' [= <-] Hre.
        destruct d as [| d']; [reflexivity |]. exfalso.
        assert (Hyes : _shouldRetry (S attempts) e = true)
          by (apply _shouldRetry_spec; split; [lia | exact Hre]).
        congruence.
      * eauto.
Qed.

(** C1.  An object transfer makes between one and three attempts, each
    the same chain (create the object, then write it from the same
    starting offset and crc): every attempt but the last failed with an
    error other than Aborted and NotificationTimeout; the result and the
    transport are those of the last attempt, whose error, if any, is
    passed on unchanged; a failed last attempt with such an error is the
    third. *)
Theorem _createAndWriteObject_retries (t : Transport Env) :
  exists n,
    (1 <= n <= MAX_RETRIES)%nat
    /\ (forall k, (S k < n)%nat ->
        exists e, fst (try_ (before k t)) = Rejected e /\ retryable e)
    /\ _createAndWriteObject data type startOffset startCrc32 t
       = try_ (before (n - 1) t)
    /\ (forall e, fst (try_ (before (n - 1) t)) = Rejected e ->
        retryable e -> n = MAX_RETRIES)
    /\ exists delta,
         calls (snd (_createAndWriteObject data type startOffset startCrc32 t))
         = calls t ++ delta
         /\ List.length (filter is_CreateObject delta) = n
         /\ same_object data type startOffset startCrc32 delta.
Proof.
  unfold _createAndWriteObject.
  apply (tryWrite_attempts MAX_RETRIES 0 t); unfold MAX_RETRIES; lia.
Qed.

End Retry.

End TransferProperties.

Section SendProperties.

Context {Env : Type} `{Collaborators Env}.

Local Open Scope list_scope.

(** ** The remaining objects, in order *)

Lemma then_resolve {A} (p : Promise A) (t : Transport Env) :
  then_ p resolve t = p t.
Proof. unfold then_, resolve. destruct (p t) as [[a | e] t']; reflexivity. Qed.

Lemma reduce_is_fold (objects : list bytes) (type : Z)
  (prevPromise : Promise Progress) (t : Transport Env) :
  fold_left
    (fun prev object =>
       then_ prev (fun progress =>
         _createAndWriteObject object type (offset progress) (crc32 progress)))
    objects prevPromise t
  = then_ prevPromise (sequential_fold objects type) t.
Proof.
  revert prevPromise t.
  induction objects as [| object rest IH]; intros prevPromise t;
    cbn [fold_left].
  - symmetry. apply then_resolve.
  - rewrite IH. unfold then_ at 1 2 3.
    destruct (prevPromise t) as [[progress | e] t']; reflexivity.
Qed.

Lemma _createAndWriteObjects_fold (objects : list bytes) (type : Z)
  (startOffset startCrc32 : jsnum) (t : Transport Env) :
  _createAndWriteObjects objects type startOffset startCrc32 t
  = sequential_fold objects type
      {| offset := startOffset; crc32 := startCrc32 |} t.
Proof. unfold _createAndWriteObjects. rewrite reduce_is_fold. reflexivity. Qed.

Lemma _createAndWriteObject_extends (data : bytes) (type : Z)
  (startOffset startCrc32 : jsnum) (t : Transport Env) :
  exists delta,
    calls (snd (_createAndWriteObject data type startOffset startCrc32 t))
    = calls t ++ delta.
Proof.
  destruct (tryWrite_attempts data type startOffset startCrc32
              MAX_RETRIES 0 t) as (n & _ & _ & _ & _ & delta & Hd & _);
    [reflexivity | unfold MAX_RETRIES; lia |].
  exists delta. exact Hd.
Qed.

Lemma sequential_fold_extends (objects : list bytes) (type : Z)
  (progress : Progress) (t : Transport Env) :
  exists delta,
    calls (snd (sequential_fold objects type progress t)) = calls t ++ delta.
Proof.
  revert progress t.
  induction objects as [| object rest IH]; intros progress t;
    cbn [sequential_fold].
  - exists []. unfold resolve. cbn [snd]. now rewrite app_nil_r.
  - unfold then_.
    destruct (_createAndWriteObject_extends object type
                (offset progress) (crc32 progress) t) as (d1 & Hd1).
    destruct (_createAndWriteObject object type
                (offset progress) (crc32 progress) t) as [[p | e] t'];
      cbn [snd] in *.
    + destruct (IH p t') as (d2 & Hd2). exists (d1 ++ d2).
      rewrite Hd2, Hd1, app_assoc. reflexivity.
    + exists d1. exact Hd1.
Qed.

(** ** Reaching the computed state *)

Lemma getFirmwareState_run (fuel : nat) (data : bytes)
  (t0 t1 : Transport Env) (v : option bool)
  (response : SelectResponse) (w2 : Env) (state : FirmwareState) :
  init fuel t0 = Some (Resolved v, t1) ->
  controlPoint_selectObject ObjectType.DATA (world t1)
  = (Resolved response, w2) ->
  new_FirmwareState data response = Resolved state ->
  getFirmwareState fuel data t0
  = Some (Resolved state,
          log (SelectObject ObjectType.DATA) (set_world w2 t1)).
Proof.
  intros Hinit Hsel Hnew.
  unfold getFirmwareState, athen, settled, then_, call.
  rewrite Hinit, Hsel, Hnew. reflexivity.
Qed.

Lemma getInitPacketState_run (fuel : nat) (data : bytes)
  (t0 t1 : Transport Env) (v : option bool)
  (response : SelectResponse) (w2 : Env) (state : InitPacketState) :
  init fuel t0 = Some (Resolved v, t1) ->
  controlPoint_selectObject ObjectType.COMMAND (world t1)
  = (Resolved response, w2) ->
  new_InitPacketState data response = Resolved state ->
  getInitPacketState fuel data t0
  = Some (Resolved state,
          log (SelectObject ObjectType.COMMAND) (set_world w2 t1)).
Proof.
  intros Hinit Hsel Hnew.
  unfold getInitPacketState, athen, settled, then_, call.
  rewrite Hinit, Hsel, Hnew. reflexivity.
Qed.

(** C3.  [_createAndWriteObjects] is the sequential fold over its
    objects.  Once [sendFirmware] has the computed state, a resumable
    state makes it write the remaining partial object first, from the
    offset and crc the device reported, and only then fold over the
    remaining objects from the progress of that write; otherwise it
    folds over the remaining objects from the state's offset and crc. *)
Theorem sendFirmware_sequential_fold (fuel : nat) (data : bytes)
  (t t1 : Transport Env) (v : option bool)
  (response : SelectResponse) (w2 : Env) (state : FirmwareState) :
  resume_position_reported ->
  init fuel (_emitInitializeEvent ObjectType.DATA t) = Some (Resolved v, t1) ->
  controlPoint_selectObject ObjectType.DATA (world t1)
  = (Resolved response, w2) ->
  new_FirmwareState data response = Resolved state ->
  let t2 := log (SelectObject ObjectType.DATA) (set_world w2 t1) in
  (forall objects type startOffset startCrc32 t',
      _createAndWriteObjects objects type startOffset startCrc32 t'
      = sequential_fold objects type
          {| offset := startOffset; crc32 := startCrc32 |} t')
  /\ (fw_isResumable state = true ->
      sendFirmware fuel data t
      = Some (then_
                (_writeObject (remainingPartialObject state) ObjectType.DATA
                   (sel_offset response) (sel_crc32 response))
                (sequential_fold (remainingObjects state) ObjectType.DATA)
                t2)
      /\ exists rest,
           forall r t3, sendFirmware fuel data t = Some (r, t3) ->
           calls t3
           = calls t2
             ++ WriteObject (remainingPartialObject state) ObjectType.DATA
                  (sel_offset response) (sel_crc32 response) :: rest)
  /\ (fw_isResumable state = false ->
      sendFirmware fuel data t
      = Some (sequential_fold (remainingObjects state) ObjectType.DATA
                {| offset := fw_offset state; crc32 := fw_crc32 state |} t2)).
Proof.
  intros [Hfw _] Hinit Hsel Hnew t2. subst t2.
  split; [intros; apply _createAndWriteObjects_fold |].
  pose proof (getFirmwareState_run fuel data _ _ _ _ _ _ Hinit Hsel Hnew)
    as Hstate.
  split; intro Hres.
  - destruct (Hfw _ _ _ Hnew Hres) as [Ho Hc].
    assert (Hsend :
              sendFirmware fuel data t
              = Some (then_
                        (_writeObject (remainingPartialObject state)
                           ObjectType.DATA
                           (sel_offset response) (sel_crc32 response))
                        (sequential_fold (remainingObjects state)
                           ObjectType.DATA)
                        (log (SelectObject ObjectType.DATA)
                           (set_world w2 t1)))).
    { unfold sendFirmware, athen. rewrite Hstate, Hres, Ho, Hc.
      unfold settled. f_equal. unfold then_.
      destruct (_writeObject (remainingPartialObject state) ObjectType.DATA
                  (sel_offset response) (sel_crc32 response)
                  (log (SelectObject ObjectType.DATA) (set_world w2 t1)))
        as [[[o c] | e] t3]; [| reflexivity].
      apply (_createAndWriteObjects_fold _ _ o c). }
    split; [exact Hsend |].
    rewrite Hsend. unfold then_.
    destruct (_writeObject_calls (remainingPartialObject state)
                ObjectType.DATA (sel_offset response) (sel_crc32 response)
                (log (SelectObject ObjectType.DATA) (set_world w2 t1)))
      as (tail & Hcalls & _).
    destruct (_writeObject (remainingPartialObject state) ObjectType.DATA
                (sel_offset response) (sel_crc32 response)
                (log (SelectObject ObjectType.DATA) (set_world w2 t1)))
      as [[progress | e] t3]; cbn [snd] in Hcalls.
    + destruct (sequential_fold_extends (remainingObjects state)
                  ObjectType.DATA progress t3) as (delta & Hdelta).
      exists (tail ++ delta). intros r t4 [= E].
      rewrite E in Hdelta. cbn [snd] in Hdelta.
      rewrite Hdelta, Hcalls, <- app_assoc. reflexivity.
    + exists tail. intros r t4 [= _ <-]. exact Hcalls.
  - unfold sendFirmware, athen. rewrite Hstate, Hres.
    unfold settled. f_equal. apply _createAndWriteObjects_fold.
Qed.

(** ** Resumed writes *)

Lemma _writeObject_single_write
  (data : bytes) (type : Z) (startOffset startCrc32 : jsnum)
  (t : Transport Env) :
  exists tail,
    calls (snd (_writeObject data type startOffset startCrc32 t))
    = calls t ++ WriteObject data type startOffset startCrc32 :: tail
    /\ filter is_CreateObject tail = []
    /\ filter is_WriteObject tail = [].
Proof.
  destruct (_writeObject_calls data type startOffset startCrc32 t)
    as (tail & Hcalls & Ht).
  exists tail. split; [exact Hcalls |].
  destruct Ht as [-> | [-> | ->]]; split; reflexivity.
Qed.

(** C5.  With a resumable state, [sendInitPacket] is the single
    [_writeObject] of the remaining data and [sendFirmware] begins with
    the single [_writeObject] of the remaining partial object: that
    write issues no createObject and one writeObject only, and its
    failure is the failure of the whole operation, with nothing run
    after it. *)
Theorem resumed_write_not_created_not_retried :
  (forall (fuel : nat) (data : bytes) (t t1 : Transport Env) (v : option bool)
          (response : SelectResponse) (w2 : Env) (state : InitPacketState),
      init fuel (_emitInitializeEvent ObjectType.COMMAND t)
      = Some (Resolved v, t1) ->
      controlPoint_selectObject ObjectType.COMMAND (world t1)
      = (Resolved response, w2) ->
      new_InitPacketState data response = Resolved state ->
      ip_isResumable state = true ->
      let t2 := log (SelectObject ObjectType.COMMAND) (set_world w2 t1) in
      let resumed :=
        _writeObject (remainingData state) ObjectType.COMMAND
          (ip_offset state) (ip_crc32 state) t2 in
      sendInitPacket fuel data t = Some resumed
      /\ exists tail,
           calls (snd resumed)
           = calls t2
             ++ WriteObject (remainingData state) ObjectType.COMMAND
                  (ip_offset state) (ip_crc32 state) :: tail
           /\ filter is_CreateObject tail = []
           /\ filter is_WriteObject tail = [])
  /\ (forall (fuel : nat) (data : bytes) (t t1 : Transport Env)
             (v : option bool)
             (response : SelectResponse) (w2 : Env) (state : FirmwareState),
      init fuel (_emitInitializeEvent ObjectType.DATA t)
      = Some (Resolved v, t1) ->
      controlPoint_selectObject ObjectType.DATA (world t1)
      = (Resolved response, w2) ->
      new_FirmwareState data response = Resolved state ->
      fw_isResumable state = true ->
      let t2 := log (SelectObject ObjectType.DATA) (set_world w2 t1) in
      let resumed :=
        _writeObject (remainingPartialObject state) ObjectType.DATA
          (fw_offset state) (fw_crc32 state) t2 in
      (forall e, fst resumed = Rejected e ->
         sendFirmware fuel data t = Some (Rejected e, snd resumed))
      /\ exists tail,
           calls (snd resumed)
           = calls t2
             ++ WriteObject (remainingPartialObject state) ObjectType.DATA
                  (fw_offset state) (fw_crc32 state) :: tail
           /\ filter is_CreateObject tail = []
           /\ filter is_WriteObject tail = []).
Proof.
  split.
  - intros fuel data t t1 v response w2 state Hinit Hsel Hnew Hres t2 resumed.
    subst t2 resumed. split; [| apply _writeObject_single_write].
    unfold sendInitPacket, athen.
    rewrite (getInitPacketState_run fuel data _ _ _ _ _ _ Hinit Hsel Hnew).
    rewrite Hres. reflexivity.
  - intros fuel data t t1 v response w2 state Hinit Hsel Hnew Hres t2 resumed.
    subst t2 resumed. split; [| apply _writeObject_single_write].
    intros e He.
    unfold sendFirmware, athen.
    rewrite (getFirmwareState_run fuel data _ _ _ _ _ _ Hinit Hsel Hnew).
    rewrite Hres. unfold settled, then_. f_equal.
    destruct (_writeObject (remainingPartialObject state) ObjectType.DATA
                (fw_offset state) (fw_crc32 state)
                (log (SelectObject ObjectType.DATA) (set_world w2 t1)))
      as [[progress | e'] t3]; cbn [fst snd] in *; congruence.
Qed.

(** ** Initialization *)

Lemma init_initialized (fuel : nat) (t : Transport Env) :
  _isInitialized t = true -> init fuel t = Some (Resolved None, t).
Proof. intro Hi. destruct fuel; cbn [init]; rewrite Hi; reflexivity. Qed.

Lemma init_resolved_initialized (fuel : nat) (t t' : Transport Env)
  (v : option bool) :
  init fuel t = Some (Resolved v, t') -> _isInitialized t' = true.
Proof.
  destruct (_isInitialized t) eqn:Hi.
  - rewrite (init_initialized fuel t Hi). intros [= _ <-]. exact Hi.
  - destruct fuel as [| fuel]; cbn [init]; rewrite Hi; [discriminate |].
    unfold athen at 1.
    match goal with |- context [settled ?p t] => destruct (settled p t)
      as [[[[] | e1] t1] |] end; try discriminate.
    unfold athen at 1.
    match goal with |- context [match ?q t1 with _ => _ end] =>
      destruct (q t1) as [[[[] | e2] t2] |] end; try discriminate.
    unfold settled, then_.
    match goal with |- context [match ?q t2 with _ => _ end] =>
      destruct (q t2) as [[[] | e3] t3] end; try discriminate.
    intros [= _ <-]. reflexivity.
Qed.

(** C4.  On an initialized transport [init] resolves at once and leaves
    the transport as it is: no call is made on any collaborator and no
    event is emitted.  A resolved [init] leaves the transport
    initialized, so an [init] after it changes nothing: two in a row end
    in the transport the first one produced. *)
Theorem init_idempotent :
  (forall (fuel : nat) (t : Transport Env),
      _isInitialized t = true -> init fuel t = Some (Resolved None, t))
  /\ (forall (fuel fuel' : nat) (t t' : Transport Env) (v : option bool),
      init fuel t = Some (Resolved v, t') ->
      _isInitialized t' = true
      /\ init fuel' t' = Some (Resolved None, t')
      /\ athen (init fuel) (fun _ => init fuel') t = Some (Resolved None, t')).
Proof.
  split; [exact init_initialized |].
  intros fuel fuel' t t' v Hinit.
  pose proof (init_resolved_initialized fuel t t' v Hinit) as Hi.
  split; [exact Hi |]. split; [apply init_initialized; exact Hi |].
  unfold athen. rewrite Hinit. apply init_initialized. exact Hi.
Qed.

Lemma framed_call {A} (c : Call) (h : Env -> Result A * Env) :
  framed (call c h).
Proof. intro t. unfold call. destruct (h (world t)). split; reflexivity. Qed.

Lemma framed_resolve {A} (a : A) : framed (resolve (Env := Env) a).
Proof. intro t. split; reflexivity. Qed.

Lemma framed_then {A B} (p : @Promise Env A) (f : A -> @Promise Env B) :
  framed p -> (forall a, framed (f a)) -> framed (then_ p f).
Proof.
  intros Hp Hf t. unfold then_. destruct (Hp t) as [F1 F2].
  destruct (p t) as [[a | e] t1]; cbn [snd] in *.
  - destruct (Hf a t1) as [G1 G2]. rewrite G1, G2, F1, F2. split; reflexivity.
  - split; assumption.
Qed.

Lemma framed_connectIfNeeded (target targetType : string) :
  framed (_connectIfNeeded target targetType).
Proof.
  intro t. unfold _connectIfNeeded, _getConnectedDevice.
  destruct (connectedDevice (adapter_getDevices (world t)) target).
  - split; reflexivity.
  - unfold _connect.
    destruct (framed_call
                (Connect target targetType DEFAULT_SCAN_PARAMS
                   DEFAULT_CONNECTION_PARAMS)
                (adapter_connect target targetType DEFAULT_SCAN_PARAMS
                   DEFAULT_CONNECTION_PARAMS) (log GetDevices t)) as [F1 F2].
    rewrite F1, F2. split; reflexivity.
Qed.

Lemma framed_getCharacteristicIds (device : Device) :
  framed (_getCharacteristicIds device).
Proof.
  unfold _getCharacteristicIds.
  apply framed_then; [apply framed_call |]. intro controlPointId.
  apply framed_then; [apply framed_call |]. intro packetId.
  apply framed_resolve.
Qed.

Lemma framed_startCharacteristicsNotifications (characteristicId : string) :
  framed (_startCharacteristicsNotifications characteristicId).
Proof.
  intro t. unfold _startCharacteristicsNotifications.
  destruct (adapter_startCharacteristicsNotifications characteristicId false
              (world t)) as [[err |] w]; split; reflexivity.
Qed.

(** With a packet receipt notification value configured, [init] reaches
    [_setPrn], whose own [init] finds [_isInitialized] still unset and
    starts over: the chain never resolves, it can only be rejected by a
    failing collaborator. *)
Lemma init_with_prn_never_resolves (fuel : nat) (t t' : Transport Env)
  (v : option bool) :
  _isInitialized t = false ->
  truthy (prnValue (_transportParameters t)) = true ->
  init fuel t <> Some (Resolved v, t').
Proof.
  revert t t' v.
  induction fuel as [| fuel IH]; intros t t' v Hi Hprn; cbn [init];
    rewrite Hi; [discriminate |].
  unfold athen at 1.
  match goal with |- context [settled ?p t] =>
    destruct (settled p t) as [[[[] | e1] t1] |] eqn:Hphase end;
    try discriminate.
  assert (Hframe : _isInitialized t1 = false
                   /\ _transportParameters t1 = _transportParameters t).
  { unfold settled in Hphase. injection Hphase as Hphase.
    match type of Hphase with ?p t = _ =>
      assert (Hf : framed p) end.
    { apply framed_then; [apply framed_connectIfNeeded |].
      intro device. apply framed_then; [apply framed_getCharacteristicIds |].
      intros ids t0.
      destruct (framed_startCharacteristicsNotifications (fst ids)
                  (set_services (fst ids) (snd ids) t0)) as [F1 F2].
      rewrite F1, F2. split; reflexivity. }
    destruct (Hf t) as [F1 F2]. rewrite Hphase in F1, F2. cbn [snd] in *.
    rewrite F1, F2. split; [exact Hi | reflexivity]. }
  destruct Hframe as [Hi1 Hp1].
  assert (Hprn1 : truthy (prnValue (_transportParameters t1)) = true)
    by (rewrite Hp1; exact Hprn).
  unfold athen at 1.
  destruct (prnValue (_transportParameters t)) as [prn |] eqn:Hv;
    [| discriminate Hprn].
  rewrite Hprn. unfold _setPrn_after, athen at 1.
  destruct (init fuel t1) as [[[v1 | e1] t2] |] eqn:Hnested;
    try discriminate.
  exfalso. exact (IH t1 t2 v1 Hi1 Hprn1 Hnested).
Qed.

End SendProperties.

(** ** The connected target device *)

Lemma devices_get_In (devices : Devices) (deviceId : string) (d : Device) :
  devices_get devices deviceId = Some d -> In (deviceId, d) devices.
Proof.
  induction devices as [| [k d'] rest IH]; cbn [devices_get];
    [discriminate |].
  destruct (String.eqb_spec k deviceId) as [-> | _].
  - intros [= ->]. left. reflexivity.
  - intro E. right. exact (IH E).
Qed.

Lemma find_deviceId_Some (devices : Devices) (target deviceId : string) :
  find_deviceId devices target = Some deviceId ->
  exists d, devices_get devices deviceId = Some d /\ address d = target.
Proof.
  unfold find_deviceId. intro F. apply find_some in F. destruct F as [_ F].
  destruct (devices_get devices deviceId) as [d |]; [| discriminate].
  exists d. split; [reflexivity |]. apply String.eqb_eq. exact F.
Qed.

Lemma connectedDevice_Some (devices : Devices) (target : string) (d : Device) :
  connectedDevice devices target = Some d ->
  address d = target /\ connected d = true
  /\ exists deviceId, In (deviceId, d) devices.
Proof.
  unfold connectedDevice.
  destruct (find_deviceId devices target) as [deviceId |] eqn:F;
    [| discriminate].
  destruct (find_deviceId_Some _ _ _ F) as (d' & Hget & Haddr).
  destruct (negb (String.eqb deviceId "")); [| discriminate].
  rewrite Hget. destruct (connected d') eqn:Hc; [| discriminate].
  intros [= <-]. repeat split; trivial.
  exists deviceId. apply devices_get_In. exact Hget.
Qed.

Lemma connectedDevice_None (devices : Devices) (target : string) :
  (forall deviceId d, In (deviceId, d) devices ->
     address d = target -> connected d = false) ->
  connectedDevice devices target = None.
Proof.
  intro Hnone.
  destruct (connectedDevice devices target) as [d |] eqn:E; [| reflexivity].
  destruct (connectedDevice_Some _ _ _ E) as (Ha & Hc & deviceId & Hin).
  rewrite (Hnone deviceId d Hin Ha) in Hc. discriminate.
Qed.

(** When device ids are distinct and not empty and no two devices share
    an address, a connected device with the target address is the one
    [connectedDevice] returns. *)
Lemma connectedDevice_unique (devices : Devices) (target deviceId : string)
  (d : Device) :
  NoDup (map fst devices) ->
  NoDup (map (fun entry => address (snd entry)) devices) ->
  Forall (fun entry => fst entry <> ""%string) devices ->
  In (deviceId, d) devices -> address d = target -> connected d = true ->
  connectedDevice devices target = Some d.
Proof.
  intros Hkeys Haddrs Hids Hin Ha Hc.
  assert (Hget : forall k x, In (k, x) devices -> devices_get devices k = Some x).
  { clear - Hkeys. induction devices as [| [k' x'] rest IH]; intros k x Hin;
      [destruct Hin |].
    cbn [map fst] in Hkeys. inversion Hkeys as [| ? ? Hnotin Hrest]; subst.
    cbn [devices_get]. destruct Hin as [[= -> ->] | Hin].
    - rewrite String.eqb_refl. reflexivity.
    - destruct (String.eqb_spec k' k) as [-> | _]; [| exact (IH Hrest _ _ Hin)].
      exfalso. apply Hnotin. apply (in_map fst _ _ Hin). }
  assert (Hsame : forall k x, In (k, x) devices -> address x = target ->
                              (k, x) = (deviceId, d)).
  { clear - Haddrs Hin Ha. induction devices as [| [k' x'] rest IH];
      intros k x Hkx Hx; [destruct Hin |].
    cbn [map snd] in Haddrs. inversion Haddrs as [| ? ? Hnotin Hrest]; subst.
    destruct Hin as [[= -> ->] | Hin]; destruct Hkx as [[= -> ->] | Hkx].
    - reflexivity.
    - exfalso. apply Hnotin.
      apply (in_map (fun entry => address (snd entry)) _ _) in Hkx.
      cbn [snd] in *. congruence.
    - exfalso. apply Hnotin.
      apply (in_map (fun entry => address (snd entry)) _ _) in Hin.
      cbn [snd] in *. congruence.
    - exact (IH Hrest Hin _ _ Hkx Hx). }
  unfold connectedDevice.
  destruct (find_deviceId devices target) as [k |] eqn:F.
  - destruct (find_deviceId_Some _ _ _ F) as (x & Hx & Hxa).
    pose proof (Hsame k x (devices_get_In _ _ _ Hx) Hxa) as E.
    injection E as -> ->.
    rewrite Forall_forall in Hids. specialize (Hids _ Hin). cbn [fst] in Hids.
    destruct (String.eqb_spec deviceId ""); [contradiction |]. cbn [negb].
    rewrite Hx, Hc. reflexivity.
  - exfalso. unfold find_deviceId in F.
    pose proof (find_none _ _ F deviceId (in_map fst _ _ Hin)) as N.
    cbn beta in N. rewrite (Hget _ _ Hin) in N.
    apply String.eqb_neq in N. contradiction.
Qed.

Section AdapterEventProperties.

Context {Env : Type} `{Collaborators Env}.

Local Open Scope list_scope.

(** ** Waiting for the disconnection *)

Lemma deliver_all_done (w : Waiting) (events : list WaitEvent) :
  listener w = None -> timer w = None -> deliver_all w events = w.
Proof.
  intros Hl Ht. unfold deliver_all.
  induction events as [| ev events IH]; cbn [fold_left]; [reflexivity |].
  assert (E : deliver w ev = w)
    by (destruct ev; cbn [deliver]; [rewrite Hl | rewrite Ht]; reflexivity).
  rewrite E. exact IH.
Qed.

Lemma deliver_all_pending (connectedInstanceId : string)
  (events : list WaitEvent) :
  deliver_all (pending_wait connectedInstanceId) events
  = match find (decisive connectedInstanceId) events with
    | None => pending_wait connectedInstanceId
    | Some (DeviceDisconnected _) => resolved_wait
    | Some TimerExpired => timed_out_wait
    end.
Proof.
  unfold deliver_all.
  induction events as [| ev events IH]; cbn [fold_left find];
    [reflexivity |].
  destruct ev as [device |]; cbn [decisive deliver pending_wait listener timer].
  - destruct (String.eqb (instanceId device) connectedInstanceId).
    + apply (deliver_all_done resolved_wait); reflexivity.
    + exact IH.
  - apply (deliver_all_done timed_out_wait); reflexivity.
Qed.

(** The outcomes of [waitForDisconnection], by what the lookup of the
    connected device gives.  The wait is resolved at once, with no
    listener and no timer, when no device with the target address is
    connected.
    When the target peer is connected the wait is pending with a
    listener for that peer and a timer of 10000 ms; of the events that
    follow, the first that is either a disconnection of a device with
    the peer's instance id or the expiry of the timer decides: the
    former resolves, the latter rejects with DisconnectionTimeout, and
    either way neither listener nor timer is left.  Other disconnections
    change nothing. *)
Theorem waitForDisconnection_outcomes (t : Transport Env) :
  let devices := adapter_getDevices (world t) in
  let target := targetAddress (_transportParameters t) in
  let w := fst (waitForDisconnection t) in
  ((forall deviceId d, In (deviceId, d) devices ->
      address d = target -> connected d = false) ->
   w = resolved_wait)
  /\ (connectedDevice devices target = None -> w = resolved_wait)
  /\ (forall peer, connectedDevice devices target = Some peer ->
      address peer = target /\ connected peer = true
      /\ w = pending_wait (instanceId peer)
      /\ forall events,
           deliver_all w events
           = match find (decisive (instanceId peer)) events with
             | None => w
             | Some (DeviceDisconnected _) => resolved_wait
             | Some TimerExpired => timed_out_wait
             end)
  /\ (forall deviceId peer,
      NoDup (map fst devices) ->
      NoDup (map (fun entry => address (snd entry)) devices) ->
      Forall (fun entry => fst entry <> ""%string) devices ->
      In (deviceId, peer) devices ->
      address peer = target -> connected peer = true ->
      w = pending_wait (instanceId peer)).
Proof.
  intros devices target w.
  assert (Hnone : connectedDevice devices target = None -> w = resolved_wait).
  { intro E. subst w devices target.
    unfold waitForDisconnection, _getConnectedDevice. rewrite E. reflexivity. }
  assert (Hsome : forall peer, connectedDevice devices target = Some peer ->
                               w = pending_wait (instanceId peer)).
  { intros peer E. subst w devices target.
    unfold waitForDisconnection, _getConnectedDevice. rewrite E. reflexivity. }
  split; [| split; [exact Hnone | split]].
  - intro Hall. apply Hnone. apply connectedDevice_None. exact Hall.
  - intros peer E.
    destruct (connectedDevice_Some _ _ _ E) as (Ha & Hc & _).
    rewrite (Hsome peer E).
    repeat split; trivial. apply deliver_all_pending.
  - intros deviceId peer Hkeys Haddrs Hids Hin Ha Hc. apply Hsome.
    exact (connectedDevice_unique _ _ _ _ Hkeys Haddrs Hids Hin Ha Hc).
Qed.

(** ** Connection parameter update requests *)

(** The handler of connection parameter update requests, by what the
    lookup of the connected device gives.  A request from the device
    [connectedDevice] returns (with the instance id of the requester)
    is forwarded as one [updateConnectionParameters] call with the
    requested parameters; an error the adapter reports for it is thrown
    as a ConnectionParamError with the same message.  Any other request
    is dropped.  In all cases the handler calls nothing else (it never
    aborts the writer), emits no event and leaves the fields of the
    transport as they are, and the error goes to the caller of the
    callback, not into a promise of the transport. *)
Theorem connParamUpdateRequest_forwarded (device : Device)
  (connectionParameters : ConnectionParameters) (t : Transport Env) :
  let devices := adapter_getDevices (world t) in
  let target := targetAddress (_transportParameters t) in
  let thrown := fst (_handleConnParamUpdateRequest device
                       connectionParameters t) in
  let t' := snd (_handleConnParamUpdateRequest device
                   connectionParameters t) in
  let update :=
    adapter_updateConnectionParameters (instanceId device)
      connectionParameters (world t) in
  (forall peer, connectedDevice devices target = Some peer ->
     instanceId peer = instanceId device ->
     calls t'
     = calls t ++ [GetDevices;
                   UpdateConnectionParameters (instanceId device)
                     connectionParameters]
     /\ world t' = snd update
     /\ (forall err, fst update = Some err ->
         thrown = Some (createError ErrorCode.CONNECTION_PARAM_ERROR
                          (message err)))
     /\ (fst update = None -> thrown = None))
  /\ ((connectedDevice devices target = None
       \/ exists peer, connectedDevice devices target = Some peer
                       /\ instanceId peer <> instanceId device) ->
      calls t' = calls t ++ [GetDevices]
      /\ world t' = world t /\ thrown = None)
  /\ _isInitialized t' = _isInitialized t
  /\ _transportParameters t' = _transportParameters t
  /\ _controlPointService t' = _controlPointService t
  /\ _objectWriter t' = _objectWriter t
  /\ progressUpdates t' = progressUpdates t
  /\ (exists delta, calls t' = calls t ++ delta /\ ~ In WriterAbort delta)
  /\ (forall e, thrown = Some e ->
      code e = Some ErrorCode.CONNECTION_PARAM_ERROR).
Proof.
  intros devices target thrown t' update.
  subst devices target thrown t' update.
  unfold _handleConnParamUpdateRequest, _getConnectedDevice.
  destruct (connectedDevice (adapter_getDevices (world t))
              (targetAddress (_transportParameters t))) as [peer |] eqn:E.
  - destruct (String.eqb_spec (instanceId peer) (instanceId device))
      as [Hid | Hid].
    + cbn [world log set_world].
      destruct (adapter_updateConnectionParameters (instanceId device)
                  connectionParameters (world t)) as [[err |] w];
        cbn [fst snd calls world log set_world _isInitialized
             _transportParameters _controlPointService _objectWriter
             progressUpdates]; rewrite <- ?app_assoc; cbn [app].
      * split; [intros p [= <-] _; repeat split; try discriminate;
                intros err' [= <-]; reflexivity |].
        split; [intros [F | (p & [= <-] & N)]; [discriminate | contradiction] |].
        repeat split.
        -- eexists. split; [reflexivity |].
           intros [F | [F | []]]; discriminate F.
        -- intros e [= <-]. reflexivity.
      * split; [intros p [= <-] _; repeat split; try discriminate |].
        split; [intros [F | (p & [= <-] & N)]; [discriminate | contradiction] |].
        repeat split.
        -- eexists. split; [reflexivity |].
           intros [F | [F | []]]; discriminate F.
        -- intros e F. discriminate F.
    + cbn [fst snd calls world log].
      split; [intros p [= <-] N; contradiction |].
      split; [intros _; repeat split |].
      repeat split.
      * exists [GetDevices]. split; [reflexivity |].
        intros [F | []]; discriminate F.
      * intros e F. discriminate F.
  - cbn [fst snd calls world log].
    split; [intros p F; discriminate F |].
    split; [intros _; repeat split |].
    repeat split.
    + exists [GetDevices]. split; [reflexivity |].
      intros [F | []]; discriminate F.
    + intros e F. discriminate F.
Qed.

End AdapterEventProperties.

(** * The properties on the scripted target *)

Module Examples.

Import Scripted.

Local Open Scope list_scope.

Lemma scripted_resume_position_reported :
  resume_position_reported (Env := Env).
Proof.
  split; intros data response state; cbn [new_FirmwareState
    new_InitPacketState collaborators]; unfold firmwareState, initPacketState.
  - destruct (maximumSize response); [| discriminate].
    destruct (resumable data response); intros [= <-]; cbn;
      [split; reflexivity | discriminate].
  - destruct (maximumSize response) as [m |]; [| discriminate].
    destruct (Z.ltb m (Z.of_nat (List.length data))); [discriminate |].
    destruct (resumable data response); intros [= <-]; cbn;
      [split; reflexivity | discriminate].
Qed.

(** Two failed attempts with a command error, then success: the run is
    the last of at most three attempts. *)
Lemma _createAndWriteObject_retries_witness :
  let t := transport [] [Fail commandError; Fail commandError] nothing true in
  exists n,
    (1 <= n <= 3)%nat
    /\ _createAndWriteObject object ObjectType.DATA (Some 0) (Some 0) t
       = attempt object ObjectType.DATA (Some 0) (Some 0)
           (after_attempts object ObjectType.DATA (Some 0) (Some 0) (n - 1) t).
Proof.
  intro t.
  destruct (_createAndWriteObject_retries object ObjectType.DATA
              (Some 0) (Some 0) t) as (n & Hn & _ & Hrun & _).
  exists n. split; [exact Hn | exact Hrun].
Defined.

(** The device reports offset 7 after a write that reached offset 3. *)
Lemma _validateProgress_offset_before_crc_witness :
  let t := transport []
             [Misreport {| offset := Some 7; crc32 := Some 9 |}] nothing true in
  exists msg,
    fst (_validateProgress {| offset := Some 3; crc32 := Some 1 |} t)
    = Rejected (createError ErrorCode.INVALID_OFFSET msg).
Proof.
  intro t.
  refine (proj1 (_validateProgress_offset_before_crc
                   {| offset := Some 3; crc32 := Some 1 |}
                   {| offset := Some 7; crc32 := Some 9 |} t
                   {| env_devices := []; script := []; received := nothing |}
                   _) _).
  - reflexivity.
  - cbn. discriminate.
Defined.

(** The same report after a whole [_writeObject]: the transfer fails
    with InvalidOffset. *)
Lemma _writeObject_cross_check_witness :
  let t := transport []
             [Proceed; Misreport {| offset := Some 7; crc32 := Some 9 |}]
             nothing true in
  exists msg,
    fst (_writeObject object ObjectType.DATA (Some 0) (Some 0) t)
    = Rejected (createError ErrorCode.INVALID_OFFSET msg).
Proof.
  intro t.
  pose proof (_writeObject_cross_check object ObjectType.DATA
                (Some 0) (Some 0) t) as Hcheck.
  destruct (writer_writeObject object ObjectType.DATA (Some 0) (Some 0)
              (world t)) as [[packets written] w1] eqn:Hwrite.
  destruct (_writeObject object ObjectType.DATA (Some 0) (Some 0) t)
    as [r t'].
  destruct Hcheck as (tail & _ & _ & Hwritten & _).
  vm_compute in Hwrite. injection Hwrite as _ Hw <-. 
  specialize (Hwritten _ (eq_sym Hw)).
  destruct (controlPoint_calculateChecksum
              {| env_devices := [];
                 script := [Misreport {| offset := Some 7; crc32 := Some 9 |}];
                 received := {| offset := Some 3; crc32 := Some 1026 |} |})
    as [checked w2] eqn:Hsum.
  destruct Hwritten as (tail' & _ & _ & Hresp).
  vm_compute in Hsum. injection Hsum as <- _.
  destruct (Hresp _ eq_refl) as [Hoffset _].
  destruct Hoffset as [_ Hmsg]; [cbn; discriminate |].
  exact Hmsg.
Defined.

(** A write of a Command object: its one packet is announced with the
    bare stage label. *)
Lemma progressUpdate_offset_only_for_data_witness :
  let t := transport [] [] nothing true in
  progressUpdates
    (snd (objectWriter_writeObject object ObjectType.COMMAND
            (Some 0) (Some 0) t))
  = [ {| stage := "Transferring init packet"; event_offset := None |} ].
Proof.
  intro t.
  destruct (progressUpdate_offset_only_for_data object ObjectType.COMMAND
              (Some 0) (Some 0) t) as (events & Hevents & Hall).
  rewrite Hevents. cbn [progressUpdates t transport app].
  inversion Hall as [| packet event packets events' Hevent Hrest Hp Hev].
  subst events. inversion Hrest. subst events'.
  destruct Hevent as (_ & _ & _ & Hcommand).
  rewrite Hcommand; reflexivity.
Defined.

(** An uninitialized transport on a target that holds two bytes of the
    firmware: the rest of the first object is written first, from the
    reported position, then the remaining objects. *)
Lemma sendFirmware_sequential_fold_witness :
  let t := transport [] [] two_bytes false in
  exists t2,
    sendFirmware 1 firmware t
    = Some (then_
              (_writeObject [Byte.x03; Byte.x04] ObjectType.DATA
                 (Some 2) (Some 33))
              (sequential_fold
                 [[Byte.x05; Byte.x06; Byte.x07; Byte.x08];
                  [Byte.x09; Byte.x0a]] ObjectType.DATA)
              t2).
Proof.
  intro t.
  destruct (init 1 (_emitInitializeEvent ObjectType.DATA t))
    as [[[v | e] t1] |] eqn:Hinit; try (vm_compute in Hinit; discriminate).
  destruct (controlPoint_selectObject ObjectType.DATA (world t1))
    as [[response | e] w2] eqn:Hsel;
    [| vm_compute in Hinit; injection Hinit as _ <-;
       vm_compute in Hsel; discriminate].
  destruct (new_FirmwareState firmware response) as [state | e] eqn:Hnew;
    [| vm_compute in Hinit; injection Hinit as _ <-;
       vm_compute in Hsel; injection Hsel as <- _;
       vm_compute in Hnew; discriminate].
  destruct (sendFirmware_sequential_fold 1 firmware t t1 v response w2 state
              scripted_resume_position_reported Hinit Hsel Hnew)
    as (_ & Hresumable & _).
  vm_compute in Hinit. injection Hinit as _ <-.
  vm_compute in Hsel. injection Hsel as <- <-.
  vm_compute in Hnew. injection Hnew as <-.
  destruct (Hresumable eq_refl) as [Hsend _].
  eexists. exact Hsend.
Defined.

(** The same target with an init packet of three bytes: the resumed
    write is the whole operation and issues one writeObject. *)
Lemma resumed_write_not_created_not_retried_witness :
  let t := transport [] [] two_bytes false in
  exists t2 tail,
    sendInitPacket 1 object t
    = Some (_writeObject [Byte.x03] ObjectType.COMMAND (Some 2) (Some 33) t2)
    /\ calls (snd (_writeObject [Byte.x03] ObjectType.COMMAND
                     (Some 2) (Some 33) t2))
       = calls t2
         ++ WriteObject [Byte.x03] ObjectType.COMMAND (Some 2) (Some 33)
            :: tail
    /\ filter is_CreateObject tail = [].
Proof.
  intro t.
  destruct (init 1 (_emitInitializeEvent ObjectType.COMMAND t))
    as [[[v | e] t1] |] eqn:Hinit; try (vm_compute in Hinit; discriminate).
  destruct (controlPoint_selectObject ObjectType.COMMAND (world t1))
    as [[response | e] w2] eqn:Hsel;
    [| vm_compute in Hinit; injection Hinit as _ <-;
       vm_compute in Hsel; discriminate].
  destruct (new_InitPacketState object response) as [state | e] eqn:Hnew;
    [| vm_compute in Hinit; injection Hinit as _ <-;
       vm_compute in Hsel; injection Hsel as <- _;
       vm_compute in Hnew; discriminate].
  pose proof (proj1 resumed_write_not_created_not_retried
                1%nat object t t1 v response w2 state Hinit Hsel Hnew)
    as Hresumed.
  vm_compute in Hinit. injection Hinit as _ <-.
  vm_compute in Hsel. injection Hsel as <- <-.
  vm_compute in Hnew. injection Hnew as <-.
  destruct (Hresumed eq_refl) as (Hsend & tail & Hcalls & Hcreate & _).
  eexists. exists tail. split; [exact Hsend | split; [exact Hcalls |]].
  exact Hcreate.
Defined.

(** A first [init] that resolves, then a second one. *)
Lemma init_idempotent_witness :
  let t := transport [] [] nothing false in
  exists t',
    init 1 t = Some (Resolved (Some true), t')
    /\ init 0 t' = Some (Resolved None, t')
    /\ athen (init 1) (fun _ => init 0) t = Some (Resolved None, t').
Proof.
  intro t.
  destruct (init 1 t) as [[[v | e] t'] |] eqn:Hinit;
    try (vm_compute in Hinit; discriminate).
  destruct (proj2 init_idempotent 1%nat 0%nat t t' v Hinit)
    as (_ & Hagain & Htwice).
  exists t'. split; [| split; [exact Hagain | exact Htwice]].
  vm_compute in Hinit. injection Hinit as <- _. reflexivity.
Defined.

(** The peer is connected; another device disconnects, then nothing
    happens until the timer expires. *)
Lemma waitForDisconnection_outcomes_witness :
  let t := transport [(instanceId peer, peer)] [] nothing true in
  let other := {| instanceId := "AA:BB:CC:00:00:02.0";
                  address := "AA:BB:CC:00:00:02"; connected := true |} in
  deliver_all (fst (waitForDisconnection t))
    [DeviceDisconnected other; TimerExpired; DeviceDisconnected peer]
  = timed_out_wait.
Proof.
  intros t other.
  destruct (waitForDisconnection_outcomes t) as (_ & _ & Hconnected & _).
  destruct (Hconnected peer eq_refl) as (_ & _ & _ & Hevents).
  rewrite Hevents. reflexivity.
Defined.

(** The peer asks for new parameters and the adapter fails to apply
    them. *)
Lemma connParamUpdateRequest_forwarded_witness :
  let t := transport [(instanceId peer, peer)] [Fail commandError]
             nothing true in
  fst (_handleConnParamUpdateRequest peer requested t)
  = Some (createError ErrorCode.CONNECTION_PARAM_ERROR "Operation failed.").
Proof.
  intro t.
  destruct (connParamUpdateRequest_forwarded peer requested t)
    as (Hforward & _).
  destruct (Hforward peer eq_refl eq_refl) as (_ & _ & Hthrown & _).
  exact (Hthrown commandError eq_refl).
Defined.

End Examples.

(** * Further properties of the code *)

(** ** Names of codes *)

Lemma object_get_set_same (result : list (Z * string)) (k : Z) (v : string) :
  object_get (object_set result k v) k = Some v.
Proof.
  induction result as [| [k' v'] rest IH]; cbn [object_set object_get].
  - rewrite Z.eqb_refl. reflexivity.
  - destruct (Z.eqb k' k) eqn:E; cbn [object_get].
    + rewrite Z.eqb_refl. reflexivity.
    + rewrite E. exact IH.
Qed.

Lemma object_get_set_other (result : list (Z * string)) (k k0 : Z)
  (v : string) :
  k <> k0 -> object_get (object_set result k v) k0 = object_get result k0.
Proof.
  intro N.
  induction result as [| [k' v'] rest IH]; cbn [object_set object_get].
  - destruct (Z.eqb_spec k k0); [contradiction | reflexivity].
  - destruct (Z.eqb_spec k' k) as [-> | N']; cbn [object_get].
    + destruct (Z.eqb_spec k k0); [contradiction | reflexivity].
    + rewrite IH. reflexivity.
Qed.

Lemma invert_untouched (obj : list (string * Z)) (result : list (Z * string))
  (value : Z) :
  ~ In value (map snd obj) ->
  object_get
    (fold_left (fun result entry => object_set result (snd entry) (fst entry))
       obj result) value
  = object_get result value.
Proof.
  revert result.
  induction obj as [| [name v] rest IH]; intros result Hnot;
    cbn [fold_left]; [reflexivity |].
  cbn [map snd fst In] in *. rewrite IH by tauto.
  apply object_get_set_other. tauto.
Qed.

(** X1.  [_getCodeName] returns the key of the last entry that holds
    the value, when that key is not the empty string, and 'UNKNOWN' for
    a value no entry holds. *)
Theorem _getCodeName_last_entry :
  (forall (front rest : list (string * Z)) (name : string) (value : Z),
      name <> ""%string -> ~ In value (map snd rest) ->
      _getCodeName (front ++ (name, value) :: rest) value = name)
  /\ (forall (codeObject : list (string * Z)) (value : Z),
      ~ In value (map snd codeObject) ->
      _getCodeName codeObject value = "UNKNOWN"%string).
Proof.
  split.
  - intros front rest name value Hname Hrest.
    unfold _getCodeName, _invert. rewrite fold_left_app. cbn [fold_left fst snd].
    rewrite invert_untouched by exact Hrest.
    rewrite object_get_set_same.
    destruct (String.eqb_spec name ""); [contradiction | reflexivity].
  - intros codeObject value Hnot. unfold _getCodeName, _invert.
    rewrite invert_untouched by exact Hnot. reflexivity.
Qed.

(** X2.  [getResultCodeName] and [getOpCodeName] give every code of
    their object its own name, and 'UNKNOWN' to every other number. *)
Theorem code_names_round_trip :
  (forall name value, In (name, value) ResultCode_object ->
     getResultCodeName value = name)
  /\ (forall value, ~ In value [0; 1; 2; 3; 4; 5; 7; 8; 10] ->
      getResultCodeName value = "UNKNOWN"%string)
  /\ (forall name value, In (name, value) ControlPointOpcode_object ->
      getOpCodeName value = name)
  /\ (forall value, ~ In value [1; 2; 3; 4; 6; 96] ->
      getOpCodeName value = "UNKNOWN"%string).
Proof.
  repeat split.
  - intros name value Hin. cbn [ResultCode_object In] in Hin.
    repeat (destruct Hin as [[= <- <-] | Hin]; [reflexivity |]).
    destruct Hin.
  - intros value Hnot. unfold getResultCodeName, _getCodeName, _invert.
    rewrite invert_untouched by exact Hnot. reflexivity.
  - intros name value Hin. cbn [ControlPointOpcode_object In] in Hin.
    repeat (destruct Hin as [[= <- <-] | Hin]; [reflexivity |]).
    destruct Hin.
  - intros value Hnot. unfold getOpCodeName, _getCodeName, _invert.
    rewrite invert_untouched by exact Hnot. reflexivity.
Qed.

(** ** Looking up the connected device *)

Section LookupProperties.

Context {Env : Type} `{Collaborators Env}.

Local Open Scope list_scope.

Lemma devices_get_app_front (front rest : Devices) (deviceId : string) :
  In deviceId (map fst front) ->
  devices_get (front ++ rest) deviceId = devices_get front deviceId.
Proof.
  induction front as [| [k d] front IH]; cbn [map fst In app devices_get];
    [intros [] |].
  intros [-> | Hin].
  - rewrite String.eqb_refl. reflexivity.
  - destruct (String.eqb k deviceId); [reflexivity | exact (IH Hin)].
Qed.

Lemma devices_get_app_rest (front rest : Devices) (deviceId : string) :
  ~ In deviceId (map fst front) ->
  devices_get (front ++ rest) deviceId = devices_get rest deviceId.
Proof.
  induction front as [| [k d] front IH]; cbn [map fst In app devices_get];
    [reflexivity |].
  intro Hnot. destruct (String.eqb_spec k deviceId) as [-> | _]; [tauto |].
  apply IH. tauto.
Qed.

Lemma devices_get_front_In (front : Devices) (deviceId : string) :
  In deviceId (map fst front) ->
  exists d, devices_get front deviceId = Some d /\ In (deviceId, d) front.
Proof.
  induction front as [| [k d] front IH]; cbn [map fst In devices_get];
    [intros [] |].
  intro Hin. destruct (String.eqb_spec k deviceId) as [-> | N].
  - exists d. split; [reflexivity | left; reflexivity].
  - destruct Hin as [E | Hin]; [contradiction |].
    destruct (IH Hin) as (d' & Hget & Hd'). exists d'. split; [exact Hget |].
    right. exact Hd'.
Qed.

(** X3.  [_getConnectedDevice] only reads: it asks the adapter for its
    devices once and leaves the world as it is.  A device it returns has
    the target address, is connected, and is an entry of the adapter's
    devices under a non-empty id. *)
Theorem _getConnectedDevice_sound (target : string) (t : Transport Env) :
  let found := fst (_getConnectedDevice target t) in
  let t' := snd (_getConnectedDevice target t) in
  world t' = world t
  /\ calls t' = calls t ++ [GetDevices]
  /\ forall d, found = Some d ->
       address d = target /\ connected d = true
       /\ exists deviceId,
            deviceId <> ""%string
            /\ In (deviceId, d) (adapter_getDevices (world t)).
Proof.
  cbn [_getConnectedDevice fst snd world calls log].
  split; [reflexivity |]. split; [reflexivity |].
  intros d. unfold connectedDevice.
  destruct (find_deviceId (adapter_getDevices (world t)) target)
    as [deviceId |] eqn:F; [| discriminate].
  destruct (find_deviceId_Some _ _ _ F) as (d' & Hget & Haddr).
  destruct (String.eqb_spec deviceId ""); cbn [negb]; [discriminate |].
  rewrite Hget. destruct (connected d') eqn:Hc; [| discriminate].
  intros [= <-]. repeat split; trivial.
  exists deviceId. split; [assumption |]. apply devices_get_In. exact Hget.
Qed.

(** X4.  Only the first device with the target address counts: when the
    devices before an entry have other addresses and that entry has the
    target address, the lookup returns its device if the device is
    connected and its id is not empty, and nothing otherwise, whatever
    devices follow. *)
Theorem connectedDevice_first_match (front rest : Devices)
  (deviceId target : string) (d : Device) :
  NoDup (map fst (front ++ (deviceId, d) :: rest)) ->
  Forall (fun entry => address (snd entry) <> target) front ->
  address d = target ->
  connectedDevice (front ++ (deviceId, d) :: rest) target
  = if negb (String.eqb deviceId "") && connected d then Some d else None.
Proof.
  intros Hkeys Hfront Haddr.
  assert (Hnotin : ~ In deviceId (map fst front)).
  { rewrite map_app in Hkeys. cbn [map fst] in Hkeys.
    apply NoDup_remove_2 in Hkeys. intro Hin. apply Hkeys.
    apply in_or_app. left. exact Hin. }
  assert (Hget : devices_get (front ++ (deviceId, d) :: rest) deviceId = Some d).
  { rewrite devices_get_app_rest by exact Hnotin. cbn [devices_get].
    rewrite String.eqb_refl. reflexivity. }
  assert (Hfind : find_deviceId (front ++ (deviceId, d) :: rest) target
                  = Some deviceId).
  { unfold find_deviceId. rewrite map_app. cbn [map fst].
    set (devices := front ++ (deviceId, d) :: rest) in *.
    assert (Hskip : forall keys,
               incl keys (map fst front) ->
               forall tail,
                 find (fun k => match devices_get devices k with
                                | Some x => String.eqb (address x) target
                                | None => false
                                end) (keys ++ tail)
                 = find (fun k => match devices_get devices k with
                                  | Some x => String.eqb (address x) target
                                  | None => false
                                  end) tail).
    { induction keys as [| k keys IH]; intros Hincl tail; [reflexivity |].
      cbn [app find].
      assert (Hk : In k (map fst front)) by (apply Hincl; left; reflexivity).
      unfold devices at 1. rewrite devices_get_app_front by exact Hk.
      destruct (devices_get_front_In front k Hk) as (x & -> & Hx).
      rewrite Forall_forall in Hfront. specialize (Hfront _ Hx).
      cbn [snd] in Hfront.
      destruct (String.eqb_spec (address x) target); [contradiction |].
      apply IH. intros k' Hk'. apply Hincl. right. exact Hk'. }
    rewrite Hskip by apply incl_refl. cbn [find]. rewrite Hget.
    rewrite (proj2 (String.eqb_eq _ _) Haddr). reflexivity. }
  unfold connectedDevice. rewrite Hfind, Hget.
  destruct (negb (String.eqb deviceId "")); [| reflexivity].
  destruct (connected d); reflexivity.
Qed.

(** ** A wait in progress *)

(** X5.  Whatever events a wait receives after [waitForDisconnection],
    it is pending exactly while its listener is registered and exactly
    while its timer is pending, and once it is settled no further event
    changes it. *)
Theorem wait_settles_once (t : Transport Env) (events : list WaitEvent) :
  let w := deliver_all (fst (waitForDisconnection t)) events in
  (outcome w = None <-> listener w <> None)
  /\ (listener w = None <-> timer w = None)
  /\ (outcome w <> None -> forall more, deliver_all w more = w).
Proof.
  intro w. subst w.
  unfold waitForDisconnection, _getConnectedDevice.
  destruct (connectedDevice (adapter_getDevices (world t))
              (targetAddress (_transportParameters t))) as [peer |];
    cbn [fst].
  - change {| outcome := None; listener := Some (instanceId peer);
              timer := Some TIMEOUT_MS |}
      with (pending_wait (instanceId peer)).
    rewrite deliver_all_pending.
    destruct (find (decisive (instanceId peer)) events) as [[device |] |];
      cbn [outcome listener timer resolved_wait timed_out_wait pending_wait].
    + repeat split; try congruence; try discriminate.
      intros _ more. apply deliver_all_done; reflexivity.
    + repeat split; try congruence; try discriminate.
      intros _ more. apply deliver_all_done; reflexivity.
    + repeat split; try congruence; try discriminate.
  - rewrite deliver_all_done by reflexivity.
    cbn [outcome listener timer settle].
    repeat split; try congruence; try discriminate.
    intros _ more. apply deliver_all_done; reflexivity.
Qed.

End LookupProperties.

(** ** What transfers keep *)

Section TransferInvariants.

Context {Env : Type} `{Collaborators Env}.

Local Open Scope list_scope.

Lemma transfer_step_refl (t : Transport Env) : transfer_step t t.
Proof.
  repeat split; [exists [] | exists []]; cbn [map]; now rewrite app_nil_r.
Qed.

Lemma transfer_step_trans (t1 t2 t3 : Transport Env) :
  transfer_step t1 t2 -> transfer_step t2 t3 -> transfer_step t1 t3.
Proof.
  intros (A1 & A2 & A3 & A4 & (cs1 & A5) & (ps1 & A6))
         (B1 & B2 & B3 & B4 & (cs2 & B5) & (ps2 & B6)).
  repeat split; try congruence.
  - exists (cs1 ++ cs2). rewrite B5, A5, app_assoc. reflexivity.
  - exists (ps1 ++ ps2). rewrite B6, A6, map_app, app_assoc. reflexivity.
Qed.

Lemma transfers_call {A} (c : Call) (h : Env -> Result A * Env) :
  transfers (call c h).
Proof.
  intro t. unfold call. destruct (h (world t)) as [r w]. cbn [snd].
  repeat split; [exists [c] | exists []]; cbn [calls progressUpdates log
    set_world map]; [reflexivity | now rewrite app_nil_r].
Qed.

Lemma transfers_then {A B} (p : @Promise Env A) (f : A -> @Promise Env B) :
  transfers p -> (forall a, transfers (f a)) -> transfers (then_ p f).
Proof.
  intros Hp Hf t. unfold then_. specialize (Hp t).
  destruct (p t) as [[a | e] t1]; cbn [snd] in *; [| exact Hp].
  eapply transfer_step_trans; [exact Hp | apply Hf].
Qed.

Lemma transfers_writeObject (data : bytes) (type : Z)
  (startOffset startCrc32 : jsnum) :
  transfers (objectWriter_writeObject data type startOffset startCrc32).
Proof.
  intro t. unfold objectWriter_writeObject.
  destruct (writer_writeObject data type startOffset startCrc32 (world t))
    as [[packets r] w]. cbn [snd].
  destruct (packets_written packets
              (log (WriteObject data type startOffset startCrc32)
                   (set_world w t))) as (_ & Hc & Hi & Hp & He).
  assert (Hs : forall ps (s : Transport Env),
             _controlPointService (fold_left on_packetWritten ps s)
             = _controlPointService s
             /\ _objectWriter (fold_left on_packetWritten ps s)
                = _objectWriter s).
  { induction ps as [| p ps IH]; intro s; cbn [fold_left];
      [split; reflexivity |].
    destruct (IH (on_packetWritten s p)) as [-> ->]. split; reflexivity. }
  destruct (Hs packets (log (WriteObject data type startOffset startCrc32)
                          (set_world w t))) as [Hs1 Hs2].
  repeat split; try (rewrite ?Hi, ?Hp, ?Hs1, ?Hs2; reflexivity).
  - exists [WriteObject data type startOffset startCrc32]. exact Hc.
  - exists packets. exact He.
Qed.

Lemma transfers_validateProgress (progressInfo : Progress) :
  transfers (_validateProgress progressInfo).
Proof.
  unfold _validateProgress. apply transfers_then; [apply transfers_call |].
  intros response t.
  destruct (negb (jsnum_eqb (offset progressInfo) (offset response)));
    [apply transfer_step_refl |].
  destruct (negb (jsnum_eqb (crc32 progressInfo) (crc32 response)));
    apply transfer_step_refl.
Qed.

Lemma transfers__writeObject (data : bytes) (type : Z)
  (startOffset startCrc32 : jsnum) :
  transfers (_writeObject data type startOffset startCrc32).
Proof.
  unfold _writeObject.
  apply transfers_then; [apply transfers_writeObject |]. intro progress.
  apply transfers_then; [apply transfers_validateProgress |]. intros _.
  apply transfers_then; [apply transfers_call |]. intros _ t.
  apply transfer_step_refl.
Qed.

Lemma transfers_attempt (data : bytes) (type : Z)
  (startOffset startCrc32 : jsnum) :
  transfers (attempt data type startOffset startCrc32).
Proof.
  unfold attempt. apply transfers_then; [apply transfers_call |].
  intros _. apply transfers__writeObject.
Qed.

Lemma transfers_tryWrite (data : bytes) (type : Z)
  (startOffset startCrc32 : jsnum) (d attempts : nat) :
  (attempts + d = MAX_RETRIES)%nat ->
  transfers (tryWrite data type startOffset startCrc32 attempts).
Proof.
  revert attempts.
  induction d as [| d IH]; intros attempts Hsum t; rewrite tryWrite_step;
    pose proof (transfers_attempt data type startOffset startCrc32 t) as Ha;
    destruct (attempt data type startOffset startCrc32 t) as [[p | e] t1];
    cbn [snd] in *; trivial;
    destruct (_shouldRetry (S attempts) e) eqn:Hretry; trivial.
  - apply _shouldRetry_spec in Hretry. lia.
  - eapply transfer_step_trans; [exact Ha |]. apply IH. lia.
Qed.

Lemma transfers_createAndWriteObject (data : bytes) (type : Z)
  (startOffset startCrc32 : jsnum) :
  transfers (_createAndWriteObject data type startOffset startCrc32).
Proof.
  unfold _createAndWriteObject. apply (transfers_tryWrite _ _ _ _ MAX_RETRIES).
  reflexivity.
Qed.

Lemma transfers_sequential_fold (objects : list bytes) (type : Z)
  (progress : Progress) :
  transfers (sequential_fold objects type progress).
Proof.
  revert progress.
  induction objects as [| object rest IH]; intro progress;
    cbn [sequential_fold].
  - intro t. apply transfer_step_refl.
  - apply transfers_then; [apply transfers_createAndWriteObject | exact IH].
Qed.

Lemma transfers_createAndWriteObjects (objects : list bytes) (type : Z)
  (startOffset startCrc32 : jsnum) :
  transfers (_createAndWriteObjects objects type startOffset startCrc32).
Proof.
  intro t. rewrite _createAndWriteObjects_fold.
  apply transfers_sequential_fold.
Qed.

End TransferInvariants.

(** ** Initialization, step by step *)

Section InitProperties.

Context {Env : Type} `{Collaborators Env}.

Local Open Scope list_scope.

Lemma setup_step_refl (t : Transport Env) : setup_step t t.
Proof. repeat split. exists []. now rewrite app_nil_r. Qed.

Lemma setup_step_trans (t1 t2 t3 : Transport Env) :
  setup_step t1 t2 -> setup_step t2 t3 -> setup_step t1 t3.
Proof.
  intros (A1 & A2 & cs1 & A3) (B1 & B2 & cs2 & B3).
  repeat split; try congruence.
  exists (cs1 ++ cs2). rewrite B3, A3, app_assoc. reflexivity.
Qed.

Lemma quiet_call {A} (c : Call) (h : Env -> Result A * Env) :
  quiet (call c h).
Proof.
  intro t. unfold call. destruct (h (world t)) as [r w]. cbn [snd].
  repeat split. exists [c]. reflexivity.
Qed.

Lemma quiet_then {A B} (p : @Promise Env A) (f : A -> @Promise Env B) :
  quiet p -> (forall a, quiet (f a)) -> quiet (then_ p f).
Proof.
  intros Hp Hf t. unfold then_. destruct (Hp t) as [F1 F2].
  destruct (p t) as [[a | e] t1]; cbn [snd] in *; [| split; assumption].
  destruct (Hf a t1) as [G1 G2]. split; [congruence |].
  eapply setup_step_trans; eassumption.
Qed.

Lemma quiet_connectIfNeeded (target targetType : string) :
  quiet (_connectIfNeeded target targetType).
Proof.
  intro t. unfold _connectIfNeeded, _getConnectedDevice.
  destruct (connectedDevice (adapter_getDevices (world t)) target).
  - cbn [resolve snd]. repeat split. exists [GetDevices]. reflexivity.
  - unfold _connect.
    destruct (quiet_call
                (Connect target targetType DEFAULT_SCAN_PARAMS
                   DEFAULT_CONNECTION_PARAMS)
                (adapter_connect target targetType DEFAULT_SCAN_PARAMS
                   DEFAULT_CONNECTION_PARAMS) (log GetDevices t))
      as (F1 & F2 & F3 & cs & F4).
    repeat split; trivial. exists (GetDevices :: cs).
    rewrite F4. cbn [calls log]. rewrite <- app_assoc. reflexivity.
Qed.

Lemma quiet_getCharacteristicIds (device : Device) :
  quiet (_getCharacteristicIds device).
Proof.
  unfold _getCharacteristicIds.
  apply quiet_then; [apply quiet_call |]. intro controlPointId.
  apply quiet_then; [apply quiet_call |]. intros packetId t.
  split; [reflexivity | apply setup_step_refl].
Qed.

Lemma quiet_startCharacteristicsNotifications (controlPointId packetId : string) :
  quiet (fun t : Transport Env =>
           _startCharacteristicsNotifications controlPointId
             (set_services controlPointId packetId t)).
Proof.
  intro t. unfold _startCharacteristicsNotifications.
  cbn [world set_services].
  destruct (adapter_startCharacteristicsNotifications controlPointId false
              (world t)) as [[err |] w]; cbn [snd];
    repeat split; eexists; reflexivity.
Qed.

(** The chain of [init] up to the start of notifications. *)
Lemma quiet_connect_discover_notify (target targetType : string) :
  quiet (then_ (_connectIfNeeded target targetType) (fun device =>
         then_ (_getCharacteristicIds device) (fun characteristicIds =>
         fun t1 : Transport Env =>
           _startCharacteristicsNotifications (fst characteristicIds)
             (set_services (fst characteristicIds) (snd characteristicIds)
                t1)))).
Proof.
  apply quiet_then; [apply quiet_connectIfNeeded |]. intro device.
  apply quiet_then; [apply quiet_getCharacteristicIds |]. intro ids.
  apply quiet_startCharacteristicsNotifications.
Qed.

Lemma quiet_mtu (mtuSize_ : option Z) :
  quiet (match mtuSize_ with
         | Some mtu =>
             if truthy mtuSize_ then _setMtuSize mtu
             else resolve (Env := Env) tt
         | None => resolve tt
         end).
Proof.
  destruct mtuSize_ as [mtu |];
    [destruct (truthy (Some mtu)); [apply quiet_call |] |];
    intro t; (split; [reflexivity | apply setup_step_refl]).
Qed.

(** Whatever [init] settles with, it kept the parameters, emitted
    nothing and only added calls; rejected on an uninitialized
    transport, it left the transport uninitialized. *)
Lemma init_setup (fuel : nat) (t t' : Transport Env)
  (r : Result (option bool)) :
  init fuel t = Some (r, t') ->
  setup_step t t'
  /\ (_isInitialized t = false ->
      forall e, r = Rejected e -> _isInitialized t' = false).
Proof.
  revert t t' r.
  induction fuel as [| fuel IH]; intros t t' r; cbn [init];
    destruct (_isInitialized t) eqn:Hi;
    try (intros [= <- <-]; split; [apply setup_step_refl | discriminate]);
    [discriminate |].
  unfold athen at 1.
  match goal with |- context [settled ?p t] =>
    assert (Q : _isInitialized (snd (p t)) = _isInitialized t
                /\ setup_step t (snd (p t)))
      by exact (quiet_connect_discover_notify _ _ t);
    change (settled p t) with (Some (p t));
    destruct (p t) as [[[] | e1] t1] end;
    cbn [snd] in Q; destruct Q as [Q1 Q2].
  2: { intros [= <- <-]. split; [exact Q2 |]. intros _ e _. congruence. }
  rewrite Hi in Q1.
  unfold athen at 1.
  assert (Hprn_stage :
            forall r2 t2,
              match prnValue (_transportParameters t) with
              | Some prn =>
                  if truthy (prnValue (_transportParameters t))
                  then _setPrn_after (init fuel) prn
                  else settled (resolve tt)
              | None => settled (resolve tt)
              end t1 = Some (r2, t2) ->
              setup_step t1 t2
              /\ match r2 with
                 | Resolved _ => _isInitialized t2 = false
                 | Rejected _ => _isInitialized t2 = false
                 end).
  { intros r2 t2.
    destruct (prnValue (_transportParameters t)) as [prn |] eqn:Hv.
    - destruct (truthy (Some prn)) eqn:Htruthy.
      + unfold _setPrn_after, athen.
        destruct (init fuel t1) as [[[v1 | e1] t1'] |] eqn:Hnested;
          [| | discriminate].
        * exfalso. destruct Q2 as (Qp & _).
          refine (init_with_prn_never_resolves fuel t1 t1' v1 Q1 _ Hnested).
          rewrite Qp, Hv. exact Htruthy.
        * intros [= <- <-]. destruct (IH _ _ _ Hnested) as [S1 S2].
          split; [exact S1 | exact (S2 Q1 e1 eq_refl)].
      + intros [= <- <-]. split; [apply setup_step_refl | exact Q1].
    - intros [= <- <-]. split; [apply setup_step_refl | exact Q1]. }
  match goal with |- context [match ?q t1 with _ => _ end] =>
    destruct (q t1) as [[[[] | e2] t2] |] eqn:Hstage end;
    [| | discriminate].
  2: { destruct (Hprn_stage _ _ eq_refl) as [S1 S2].
       intros [= <- <-]. split; [eapply setup_step_trans; eassumption |].
       intros _ e _. exact S2. }
  destruct (Hprn_stage _ _ eq_refl) as [S1 S2].
  unfold settled, then_.
  match goal with |- context [match ?q t2 with _ => _ end] =>
    assert (M : _isInitialized (snd (q t2)) = _isInitialized t2
                /\ setup_step t2 (snd (q t2)))
      by exact (quiet_mtu (mtuSize (_transportParameters t)) t2);
    destruct (q t2) as [[[] | e3] t3] end;
    cbn [snd] in M; destruct M as [M1 M2].
  - intros [= <- <-]. split; [| discriminate].
    eapply setup_step_trans; [exact Q2 |].
    eapply setup_step_trans; [exact S1 |].
    destruct M2 as (P1 & P2 & cs & P3). repeat split; trivial.
    exists cs. exact P3.
  - intros [= <- <-]. split.
    + eapply setup_step_trans; [exact Q2 |].
      eapply setup_step_trans; eassumption.
    + intros _ e _. congruence.
Qed.

(** X6.  However [init] settles, it has kept the transport parameters,
    emitted no progressUpdate event and only added calls; when it is
    rejected on an uninitialized transport the transport is still
    uninitialized, so that a later [init] starts over. *)
Theorem init_failure_leaves_uninitialized (fuel : nat) (t t' : Transport Env)
  (r : Result (option bool)) :
  init fuel t = Some (r, t') ->
  _transportParameters t' = _transportParameters t
  /\ progressUpdates t' = progressUpdates t
  /\ (exists cs, calls t' = calls t ++ cs)
  /\ (forall e, _isInitialized t = false -> r = Rejected e ->
      _isInitialized t' = false).
Proof.
  intro Hinit. destruct (init_setup fuel t t' r Hinit) as ((P1 & P2 & P3) & F).
  repeat split; trivial. intros e Hi Hr. exact (F Hi e Hr).
Qed.

(** X7.  With a packet receipt notification value configured (not
    zero), [init] on an uninitialized transport never resolves: whatever
    the number of nested [init] calls allowed, the chain is still
    pending or has been rejected, and the transport is left
    uninitialized. *)
Theorem init_with_prn_pending_or_rejected (fuel : nat) (t : Transport Env) :
  _isInitialized t = false ->
  truthy (prnValue (_transportParameters t)) = true ->
  init fuel t = None
  \/ exists e t', init fuel t = Some (Rejected e, t')
                  /\ _isInitialized t' = false.
Proof.
  intros Hi Hprn.
  destruct (init fuel t) as [[[v | e] t'] |] eqn:Hinit.
  - exfalso. exact (init_with_prn_never_resolves fuel t t' v Hi Hprn Hinit).
  - right. exists e, t'. split; [reflexivity |].
    exact (proj2 (init_setup fuel t t' _ Hinit) Hi e eq_refl).
  - left. reflexivity.
Qed.


(** X9.  Failures of a first [init].  An error of [connect] is passed
    on as it is and nothing is called after it.  When the device is
    there and both characteristics are found but the adapter cannot
    start the notifications, [init] is rejected with
    NOTIFICATION_START_ERROR and the adapter's message, after that call
    and before any negotiation, and the transport stays
    uninitialized. *)
Theorem init_failures (fuel : nat) (t : Transport Env) :
  _isInitialized t = false ->
  let target := targetAddress (_transportParameters t) in
  let targetType := targetAddressType (_transportParameters t) in
  (forall e w,
      connectedDevice (adapter_getDevices (world t)) target = None ->
      adapter_connect target targetType DEFAULT_SCAN_PARAMS
        DEFAULT_CONNECTION_PARAMS (world t) = (Rejected e, w) ->
      exists t',
        init (S fuel) t = Some (Rejected e, t')
        /\ calls t'
           = calls t ++ [GetDevices;
                         Connect target targetType DEFAULT_SCAN_PARAMS
                           DEFAULT_CONNECTION_PARAMS]
        /\ _isInitialized t' = false)
  /\ (forall device t0 controlPointId packetId t1 err w,
      _connectIfNeeded target targetType t = (Resolved device, t0) ->
      _getCharacteristicIds device t0
      = (Resolved (controlPointId, packetId), t1) ->
      adapter_startCharacteristicsNotifications controlPointId false (world t1)
      = (Some err, w) ->
      exists t',
        init (S fuel) t
        = Some (Rejected (createError ErrorCode.NOTIFICATION_START_ERROR
                            (message err)), t')
        /\ calls t'
           = calls t1 ++ [StartCharacteristicsNotifications controlPointId
                            false]
        /\ _isInitialized t' = false).
Proof.
  intros Hi target targetType. subst target targetType. split.
  - intros e w Hdev Hconnect. cbn [init]. rewrite Hi.
    unfold athen, settled, then_, _connectIfNeeded, _getConnectedDevice,
      _connect, call.
    rewrite Hdev. cbn [world log]. rewrite Hconnect.
    eexists. split; [reflexivity |].
    cbn [calls log set_world _isInitialized]. rewrite <- app_assoc.
    split; [reflexivity | exact Hi].
  - intros device t0 controlPointId packetId t1 err w Hconn Hids Hstart.
    cbn [init]. rewrite Hi.
    unfold athen, settled, then_. rewrite Hconn, Hids.
    unfold _startCharacteristicsNotifications. cbn [fst snd world set_services].
    rewrite Hstart. eexists. split; [reflexivity |].
    cbn [calls log set_world set_services _isInitialized].
    split; [reflexivity |].
    destruct (quiet_connectIfNeeded (targetAddress (_transportParameters t))
                (targetAddressType (_transportParameters t)) t) as [F1 _].
    destruct (quiet_getCharacteristicIds device t0) as [G1 _].
    rewrite Hconn in F1. rewrite Hids in G1. cbn [snd] in *. congruence.
Qed.

End InitProperties.

(** ** Object transfers: which attempt decides, and what success means *)

Section RetryMore.

Context {Env : Type} `{Collaborators Env}.

Local Open Scope list_scope.

Variables (data : bytes) (type : Z) (startOffset startCrc32 : jsnum).

Local Abbreviation try_ := (attempt data type startOffset startCrc32).
Local Abbreviation before := (after_attempts data type startOffset startCrc32).

Lemma tryWrite_decided (k attempts : nat) (t : Transport Env) :
  (attempts + k < MAX_RETRIES)%nat ->
  (forall j, (j < k)%nat ->
     exists e, fst (try_ (before j t)) = Rejected e /\ retryable e) ->
  ((exists p, fst (try_ (before k t)) = Resolved p)
   \/ (exists e, fst (try_ (before k t)) = Rejected e /\ ~ retryable e)
   \/ (attempts + k + 1)%nat = MAX_RETRIES) ->
  tryWrite data type startOffset startCrc32 attempts t = try_ (before k t).
Proof.
  revert attempts t.
  induction k as [| k IH]; intros attempts t Hlt Hfail Hlast;
    rewrite tryWrite_step.
  - change (before 0%nat t) with t in *.
    destruct (try_ t) as [[p | e] t1]; cbn [fst] in *; [reflexivity |].
    destruct (_shouldRetry (S attempts) e) eqn:Hretry; [| reflexivity].
    apply _shouldRetry_spec in Hretry. destruct Hretry as [Hn Hre].
    destruct Hlast as [(p & F) | [(e' & [= <-] & N) | Hmax]];
      [discriminate | contradiction | lia].
  - destruct (Hfail 0%nat ltac:(lia)) as (e & He & Hre).
    change (before 0%nat t) with t in He.
    assert (Hb : forall j, before (S j) t = before j (snd (try_ t)))
      by (intro j; unfold after_attempts; rewrite Nat.iter_succ_r;
          reflexivity).
    rewrite Hb. rewrite Hb in Hlast.
    assert (Hfail' : forall j, (j < k)%nat ->
              exists e0, fst (try_ (before j (snd (try_ t)))) = Rejected e0
                         /\ retryable e0).
    { intros j Hj. rewrite <- Hb. apply Hfail. lia. }
    destruct (try_ t) as [[p | e0] t1]; cbn [fst snd] in *; [discriminate |].
    injection He as ->.
    assert (Hretry : _shouldRetry (S attempts) e = true)
      by (apply _shouldRetry_spec; split; [lia | exact Hre]).
    rewrite Hretry. apply IH; [lia | exact Hfail' |].
    destruct Hlast as [F | [F | F]]; [left | right; left | right; right];
      trivial. lia.
Qed.

(** X10.  Which attempt decides an object transfer: when the attempts
    before the (k+1)-th were rejected with errors that allow a retry,
    and the (k+1)-th resolved, or was rejected with Aborted or
    NotificationTimeout, or is the third, the result and the transport
    of the transfer are those of that attempt. *)
Theorem _createAndWriteObject_decided (k : nat) (t : Transport Env) :
  (k < MAX_RETRIES)%nat ->
  (forall j, (j < k)%nat ->
     exists e, fst (try_ (before j t)) = Rejected e /\ retryable e) ->
  ((exists p, fst (try_ (before k t)) = Resolved p)
   \/ (exists e, fst (try_ (before k t)) = Rejected e
                 /\ (code e = Some ErrorCode.ABORTED
                     \/ code e = Some ErrorCode.NOTIFICATION_TIMEOUT))
   \/ S k = MAX_RETRIES) ->
  _createAndWriteObject data type startOffset startCrc32 t
  = try_ (before k t).
Proof.
  intros Hk Hfail Hlast. unfold _createAndWriteObject.
  apply tryWrite_decided; [exact Hk | exact Hfail |].
  destruct Hlast as [F | [(e & He & Hcode) | F]];
    [left; exact F | right; left | right; right; lia].
  exists e. split; [exact He |]. unfold retryable. intros [N1 N2].
  destruct Hcode; contradiction.
Qed.

Lemma attempt_resolved (s s' : Transport Env) (p : Progress) :
  try_ s = (Resolved p, s') ->
  calls s'
  = calls s ++ [CreateObject type (List.length data);
                WriteObject data type startOffset startCrc32;
                CalculateChecksum; Execute]
  /\ exists w0 packets w1 response w2,
       controlPoint_createObject type (List.length data) (world s)
       = (Resolved tt, w0)
       /\ writer_writeObject data type startOffset startCrc32 w0
          = ((packets, Resolved p), w1)
       /\ controlPoint_calculateChecksum w1 = (Resolved response, w2)
       /\ offset p = offset response /\ crc32 p = crc32 response
       /\ controlPoint_execute w2 = (Resolved tt, world s').
Proof.
  unfold attempt. unfold then_ at 1. unfold call at 1.
  destruct (controlPoint_createObject type (List.length data) (world s))
    as [[[] | e] w0] eqn:Hcreate; [| discriminate].
  unfold _writeObject. unfold then_ at 1.
  pose proof (objectWriter_writeObject_run data type startOffset startCrc32
                (log (CreateObject type (List.length data)) (set_world w0 s)))
    as Hrun.
  cbn [world log set_world] in Hrun.
  destruct (writer_writeObject data type startOffset startCrc32 w0)
    as [[packets written] w1] eqn:Hwrite.
  destruct (objectWriter_writeObject data type startOffset startCrc32
              (log (CreateObject type (List.length data)) (set_world w0 s)))
    as [r s1].
  destruct Hrun as (-> & Hw & Hc & _).
  destruct written as [progress | e]; [| discriminate].
  unfold then_ at 1. rewrite _validateProgress_run, Hw.
  destruct (controlPoint_calculateChecksum w1) as [[response | e] w2]
    eqn:Hsum; [| discriminate].
  destruct (jsnum_eqb (offset progress) (offset response)) eqn:Eo;
    [| discriminate].
  destruct (jsnum_eqb (crc32 progress) (crc32 response)) eqn:Ec;
    [| discriminate].
  apply jsnum_eqb_eq in Eo, Ec.
  unfold then_, call, resolve. cbn [world log set_world].
  destruct (controlPoint_execute w2) as [[[] | e] w3] eqn:Hexec;
    [| discriminate].
  intros [= <- <-]. cbn [calls world log set_world].
  rewrite Hc. cbn [calls log set_world]. rewrite <- !app_assoc.
  split; [reflexivity |].
  exists w0, packets, w1, response, w2. repeat split; trivial.
Qed.

Lemma before_extends (k : nat) (t : Transport Env) :
  exists front, calls (before k t) = calls t ++ front.
Proof.
  induction k as [| k (front & IH)].
  - exists []. now rewrite app_nil_r.
  - change (before (S k) t) with (snd (try_ (before k t))).
    destruct (attempt_calls data type startOffset startCrc32 (before k t))
      as (tail & Hc & _).
    exists (front ++ CreateObject type (List.length data) :: tail).
    rewrite Hc, IH, app_assoc. reflexivity.
Qed.

(** X11.  When an object transfer resolves, its last four calls are
    createObject, writeObject, calculateChecksum and execute for that
    object, all of which succeeded: the progress it resolves with is the
    one the writer reported for that write, the device reported the same
    offset and crc, and the object was executed. *)
Theorem _createAndWriteObject_resolved (t t' : Transport Env) (p : Progress) :
  _createAndWriteObject data type startOffset startCrc32 t = (Resolved p, t') ->
  exists front s w0 packets w1 response w2,
    calls s = calls t ++ front
    /\ calls t'
       = calls s ++ [CreateObject type (List.length data);
                     WriteObject data type startOffset startCrc32;
                     CalculateChecksum; Execute]
    /\ controlPoint_createObject type (List.length data) (world s)
       = (Resolved tt, w0)
    /\ writer_writeObject data type startOffset startCrc32 w0
       = ((packets, Resolved p), w1)
    /\ controlPoint_calculateChecksum w1 = (Resolved response, w2)
    /\ offset p = offset response /\ crc32 p = crc32 response
    /\ controlPoint_execute w2 = (Resolved tt, world t').
Proof.
  intro Hrun.
  destruct (tryWrite_attempts data type startOffset startCrc32
              MAX_RETRIES 0 t) as (n & _ & _ & Hlast & _);
    [reflexivity | unfold MAX_RETRIES; lia |].
  unfold _createAndWriteObject in Hrun. rewrite Hrun in Hlast.
  symmetry in Hlast.
  destruct (attempt_resolved _ _ _ Hlast)
    as (Hcalls & w0 & packets & w1 & response & w2 & Hrest).
  destruct (before_extends (n - 1) t) as (front & Hfront).
  exists front, (before (n - 1)%nat t), w0, packets, w1, response, w2.
  split; [exact Hfront |]. split; [exact Hcalls | exact Hrest].
Qed.

End RetryMore.

(** ** The order of object creation *)

Section CreateOrder.

Context {Env : Type} `{Collaborators Env}.

Local Open Scope list_scope.

Lemma filter_all_same {A} (f : A -> bool) (x : A) (l : list A) :
  Forall (fun c => f c = true -> c = x) l ->
  filter f l = repeat x (List.length (filter f l)).
Proof.
  induction l as [| a l IH]; intro Hall; cbn [filter]; [reflexivity |].
  inversion Hall as [| ? ? Ha Hl]; subst.
  destruct (f a) eqn:E; [| exact (IH Hl)].
  cbn [List.length repeat]. rewrite <- (IH Hl), (Ha eq_refl). reflexivity.
Qed.

Lemma _createAndWriteObject_creates (data : bytes) (type : Z)
  (startOffset startCrc32 : jsnum) (t : Transport Env) :
  exists n delta,
    (1 <= n <= MAX_RETRIES)%nat
    /\ calls (snd (_createAndWriteObject data type startOffset startCrc32 t))
       = calls t ++ delta
    /\ filter is_CreateObject delta
       = repeat (CreateObject type (List.length data)) n.
Proof.
  destruct (tryWrite_attempts data type startOffset startCrc32
              MAX_RETRIES 0 t) as (n & Hn & _ & _ & _ & delta & Hd & Hlen & Hs);
    [reflexivity | unfold MAX_RETRIES; lia |].
  exists n, delta. split; [exact Hn |]. split; [exact Hd |].
  rewrite <- Hlen. apply filter_all_same.
  unfold same_object in Hs. eapply Forall_impl; [| exact Hs].
  intros c [Hc _]. exact Hc.
Qed.

Lemma sequential_fold_creates (objects : list bytes) (type : Z)
  (progress : Progress) (t : Transport Env) :
  exists delta counts,
    calls (snd (sequential_fold objects type progress t)) = calls t ++ delta
    /\ (List.length counts <= List.length objects)%nat
    /\ Forall (fun n => (1 <= n <= MAX_RETRIES)%nat) counts
    /\ filter is_CreateObject delta = create_calls type objects counts
    /\ (forall q, fst (sequential_fold objects type progress t) = Resolved q ->
        List.length counts = List.length objects)
    /\ (forall e, fst (sequential_fold objects type progress t) = Rejected e ->
        exists k p s,
          List.length counts = S k
          /\ (k < List.length objects)%nat
          /\ sequential_fold (firstn k objects) type progress t
             = (Resolved p, s)
          /\ _createAndWriteObject (nth k objects []) type
               (offset p) (crc32 p) s
             = (Rejected e, snd (sequential_fold objects type progress t))).
Proof.
  revert progress t.
  induction objects as [| object rest IH]; intros progress t;
    cbn [sequential_fold].
  - exists [], []. cbn [resolve fst snd]. rewrite app_nil_r.
    repeat split; trivial. discriminate.
  - unfold then_ at 1 2 3 4.
    destruct (_createAndWriteObject_creates object type
                (offset progress) (crc32 progress) t)
      as (n & d1 & Hn & Hd1 & Hf1).
    destruct (_createAndWriteObject object type
                (offset progress) (crc32 progress) t) as [[p | e] t1]
      eqn:Hfirst; cbn [snd] in Hd1.
    + destruct (IH p t1) as (d2 & counts & Hd2 & Hlen & Hall & Hf2 & Hres & Hrej).
      exists (d1 ++ d2), (n :: counts).
      split; [rewrite Hd2, Hd1, app_assoc; reflexivity |].
      split; [cbn [List.length]; lia |].
      split; [constructor; assumption |].
      split; [| split].
      * rewrite filter_app, Hf1, Hf2. reflexivity.
      * intros q Hq. cbn [List.length]. f_equal. exact (Hres q Hq).
      * intros e He.
        destruct (Hrej e He) as (k & p' & s & Hk & Hlt & Hprefix & Hfailed).
        exists (S k), p', s. cbn [List.length firstn nth sequential_fold].
        split; [f_equal; exact Hk |]. split; [lia |].
        split; [| exact Hfailed].
        unfold then_. rewrite Hfirst. exact Hprefix.
    + exists d1, [n]. cbn [fst snd].
      split; [exact Hd1 |]. split; [cbn [List.length]; lia |].
      split; [constructor; [exact Hn | constructor] |].
      split; [| split]; try discriminate.
      * rewrite Hf1. unfold create_calls.
        destruct rest; cbn [combine map List.concat fst snd];
          now rewrite app_nil_r.
      * intros e' [= <-]. exists 0%nat, progress, t.
        cbn [List.length firstn nth sequential_fold resolve].
        split; [reflexivity |]. split; [lia |].
        split; [reflexivity | exact Hfirst].
Qed.

(** X12.  The createObject calls of [_createAndWriteObjects] follow the
    order of the objects: they are one to three calls for the first
    object, with its size, then one to three for the second, and so on.
    When the whole resolves every object was created.  When it is
    rejected, the objects before the failing one were transferred, the
    rejection and the final transport are those of the failing object's
    transfer, so nothing runs after it, and no object after it was
    created. *)
Theorem _createAndWriteObjects_create_order (objects : list bytes) (type : Z)
  (startOffset startCrc32 : jsnum) (t : Transport Env) :
  let r := fst (_createAndWriteObjects objects type startOffset startCrc32 t) in
  let t' := snd (_createAndWriteObjects objects type startOffset startCrc32 t) in
  exists delta counts,
    calls t' = calls t ++ delta
    /\ (List.length counts <= List.length objects)%nat
    /\ Forall (fun n => (1 <= n <= MAX_RETRIES)%nat) counts
    /\ filter is_CreateObject delta = create_calls type objects counts
    /\ (forall q, r = Resolved q -> List.length counts = List.length objects)
    /\ (forall e, r = Rejected e ->
        exists k p s,
          List.length counts = S k
          /\ (k < List.length objects)%nat
          /\ _createAndWriteObjects (firstn k objects) type
               startOffset startCrc32 t
             = (Resolved p, s)
          /\ _createAndWriteObject (nth k objects []) type
               (offset p) (crc32 p) s
             = (Rejected e, t')).
Proof.
  intros r t'. subst r t'.
  rewrite _createAndWriteObjects_fold.
  destruct (sequential_fold_creates objects type
              {| offset := startOffset; crc32 := startCrc32 |} t)
    as (delta & counts & Hcalls & Hlen & Hall & Hcreate & Hres & Hrej).
  exists delta, counts. repeat split; trivial.
  intros e He. destruct (Hrej e He) as (k & p & s & Hk & Hlt & Hprefix & Hfailed).
  exists k, p, s. repeat split; trivial.
  rewrite _createAndWriteObjects_fold. exact Hprefix.
Qed.

End CreateOrder.

(** ** The public transfers as a whole *)

Section SendMore.

Context {Env : Type} `{Collaborators Env}.

Local Open Scope list_scope.

Lemma select_effect {S} (fuel : nat) (type : Z)
  (new_state : SelectResponse -> Result S)
  (t0 t2 : Transport Env) (r : Result S) :
  athen (init fuel) (fun _ =>
    settled (then_ (call (SelectObject type) (controlPoint_selectObject type))
               (fun response t => (new_state response, t)))) t0
  = Some (r, t2) ->
  setup_step t0 t2
  /\ (_isInitialized t0 = true -> _isInitialized t2 = true)
  /\ (forall state, r = Resolved state -> _isInitialized t2 = true).
Proof.
  unfold athen.
  destruct (init fuel t0) as [[[v | e] t1] |] eqn:Hinit; [| | discriminate].
  - pose proof (init_resolved_initialized fuel t0 t1 v Hinit) as Hi1.
    destruct (init_setup fuel t0 t1 _ Hinit) as [S1 _].
    unfold settled, then_, call.
    destruct (controlPoint_selectObject type (world t1)) as [[response | e] w];
      intros [= <- <-];
      (split; [eapply setup_step_trans; [exact S1 |];
               repeat split; exists [SelectObject type]; reflexivity |]);
      split; intros; exact Hi1.
  - intros [= <- <-]. destruct (init_setup fuel t0 t1 _ Hinit) as [S1 _].
    split; [exact S1 |]. split; [| discriminate].
    intro Hi. rewrite (init_initialized fuel t0 Hi) in Hinit. discriminate.
Qed.

Lemma sendFirmware_effect (fuel : nat) (data : bytes)
  (t t' : Transport Env) (r : Result Progress) :
  sendFirmware fuel data t = Some (r, t') ->
  exists t2,
    setup_step (_emitInitializeEvent ObjectType.DATA t) t2
    /\ transfer_step t2 t'
    /\ (_isInitialized t = true -> _isInitialized t2 = true)
    /\ (forall p, r = Resolved p -> _isInitialized t2 = true).
Proof.
  unfold sendFirmware. unfold athen at 1.
  destruct (getFirmwareState fuel data (_emitInitializeEvent ObjectType.DATA t))
    as [[[state | e] t2] |] eqn:Hstate; [| | discriminate].
  - destruct (select_effect fuel ObjectType.DATA (new_FirmwareState data)
                _ _ _ Hstate) as (S1 & F1 & F2).
    intro Hsend. exists t2. split; [exact S1 |].
    split; [| split; [exact F1 | intros; exact (F2 state eq_refl)]].
    destruct (fw_isResumable state); unfold settled in Hsend;
      injection Hsend as Hsend;
      match type of Hsend with ?q t2 = _ =>
        assert (Ht : transfer_step t2 (snd (q t2))) end;
      try (rewrite Hsend in Ht; exact Ht).
    + apply transfers_then; [apply transfers__writeObject |].
      intro progress. apply transfers_createAndWriteObjects.
    + apply transfers_createAndWriteObjects.
  - destruct (select_effect fuel ObjectType.DATA (new_FirmwareState data)
                _ _ _ Hstate) as (S1 & F1 & F2).
    intros [= <- <-]. exists t2. split; [exact S1 |].
    split; [apply transfer_step_refl |]. split; [exact F1 | discriminate].
Qed.

Lemma sendInitPacket_effect (fuel : nat) (data : bytes)
  (t t' : Transport Env) (r : Result Progress) :
  sendInitPacket fuel data t = Some (r, t') ->
  exists t2,
    setup_step (_emitInitializeEvent ObjectType.COMMAND t) t2
    /\ transfer_step t2 t'
    /\ (_isInitialized t = true -> _isInitialized t2 = true)
    /\ (forall p, r = Resolved p -> _isInitialized t2 = true).
Proof.
  unfold sendInitPacket. unfold athen at 1.
  destruct (getInitPacketState fuel data
              (_emitInitializeEvent ObjectType.COMMAND t))
    as [[[state | e] t2] |] eqn:Hstate; [| | discriminate].
  - destruct (select_effect fuel ObjectType.COMMAND (new_InitPacketState data)
                _ _ _ Hstate) as (S1 & F1 & F2).
    intro Hsend. exists t2. split; [exact S1 |].
    split; [| split; [exact F1 | intros; exact (F2 state eq_refl)]].
    destruct (ip_isResumable state); unfold settled in Hsend;
      injection Hsend as Hsend;
      match type of Hsend with ?q t2 = _ =>
        assert (Ht : transfer_step t2 (snd (q t2))) end;
      try (rewrite Hsend in Ht; exact Ht).
    + apply transfers__writeObject.
    + apply transfers_createAndWriteObject.
  - destruct (select_effect fuel ObjectType.COMMAND (new_InitPacketState data)
                _ _ _ Hstate) as (S1 & F1 & F2).
    intros [= <- <-]. exists t2. split; [exact S1 |].
    split; [apply transfer_step_refl |]. split; [exact F1 | discriminate].
Qed.


(** X14.  A settled [sendInitPacket] or [sendFirmware] has kept the
    transport parameters; it never resets [_isInitialized]; and when it
    resolved, the transport is initialized. *)
Theorem send_keeps_transport (fuel : nat) (data : bytes)
  (t t' : Transport Env) (r : Result Progress) :
  sendInitPacket fuel data t = Some (r, t')
  \/ sendFirmware fuel data t = Some (r, t') ->
  _transportParameters t' = _transportParameters t
  /\ (_isInitialized t = true -> _isInitialized t' = true)
  /\ (forall p, r = Resolved p -> _isInitialized t' = true).
Proof.
  intros [Hsend | Hsend];
    [destruct (sendInitPacket_effect _ _ _ _ _ Hsend)
       as (t2 & (S1 & _) & (T1 & T2 & _) & F1 & F2)
    | destruct (sendFirmware_effect _ _ _ _ _ Hsend)
       as (t2 & (S1 & _) & (T1 & T2 & _) & F1 & F2)];
    (split; [rewrite T2, S1; reflexivity |]);
    (split; [intro Hi; rewrite T1; exact (F1 Hi)
            | intros p Hp; rewrite T1; exact (F2 p Hp)]).
Qed.

(** X15.  [sendInitPacket] stops at the first stage that fails: a
    rejected [init] is the result, with nothing selected; a rejected
    selectObject is the result, with the state never computed; an error
    thrown while the state is computed (by the constructor of
    InitPacketState, after the device was asked) is the result, with
    nothing created or written after the selectObject call. *)
Theorem sendInitPacket_stops_at_first_failure (fuel : nat) (data : bytes)
  (t : Transport Env) :
  let t0 := _emitInitializeEvent ObjectType.COMMAND t in
  (forall e t1,
      init fuel t0 = Some (Rejected e, t1) ->
      sendInitPacket fuel data t = Some (Rejected e, t1))
  /\ (forall v t1 e w,
      init fuel t0 = Some (Resolved v, t1) ->
      controlPoint_selectObject ObjectType.COMMAND (world t1)
      = (Rejected e, w) ->
      sendInitPacket fuel data t
      = Some (Rejected e,
              log (SelectObject ObjectType.COMMAND) (set_world w t1)))
  /\ (forall v t1 response w e,
      init fuel t0 = Some (Resolved v, t1) ->
      controlPoint_selectObject ObjectType.COMMAND (world t1)
      = (Resolved response, w) ->
      new_InitPacketState data response = Rejected e ->
      sendInitPacket fuel data t
      = Some (Rejected e,
              log (SelectObject ObjectType.COMMAND) (set_world w t1))).
Proof.
  intro t0. subst t0.
  unfold sendInitPacket, getInitPacketState, athen, settled, then_, call.
  repeat split.
  - intros e t1 ->. reflexivity.
  - intros v t1 e w -> ->. reflexivity.
  - intros v t1 response w e -> -> ->. reflexivity.
Qed.

(** X16.  The same for [sendFirmware], whose state is computed by the
    constructor of FirmwareState. *)
Theorem sendFirmware_stops_at_first_failure (fuel : nat) (data : bytes)
  (t : Transport Env) :
  let t0 := _emitInitializeEvent ObjectType.DATA t in
  (forall e t1,
      init fuel t0 = Some (Rejected e, t1) ->
      sendFirmware fuel data t = Some (Rejected e, t1))
  /\ (forall v t1 e w,
      init fuel t0 = Some (Resolved v, t1) ->
      controlPoint_selectObject ObjectType.DATA (world t1)
      = (Rejected e, w) ->
      sendFirmware fuel data t
      = Some (Rejected e,
              log (SelectObject ObjectType.DATA) (set_world w t1)))
  /\ (forall v t1 response w e,
      init fuel t0 = Some (Resolved v, t1) ->
      controlPoint_selectObject ObjectType.DATA (world t1)
      = (Resolved response, w) ->
      new_FirmwareState data response = Rejected e ->
      sendFirmware fuel data t
      = Some (Rejected e,
              log (SelectObject ObjectType.DATA) (set_world w t1))).
Proof.
  intro t0. subst t0.
  unfold sendFirmware, getFirmwareState, athen, settled, then_, call.
  repeat split.
  - intros e t1 ->. reflexivity.
  - intros v t1 e w -> ->. reflexivity.
  - intros v t1 response w e -> -> ->. reflexivity.
Qed.

(** X17.  An init packet that cannot be resumed is sent as one object
    under the retry wrapper, created with the size of the remaining data
    and written without a starting offset or crc: [sendInitPacket] is
    that object transfer, which makes one to three createObject calls
    for the Command type and only writes from an undefined start. *)
Theorem sendInitPacket_fresh (fuel : nat) (data : bytes)
  (t t1 : Transport Env) (v : option bool)
  (response : SelectResponse) (w2 : Env) (state : InitPacketState) :
  init fuel (_emitInitializeEvent ObjectType.COMMAND t)
  = Some (Resolved v, t1) ->
  controlPoint_selectObject ObjectType.COMMAND (world t1)
  = (Resolved response, w2) ->
  new_InitPacketState data response = Resolved state ->
  ip_isResumable state = false ->
  let t2 := log (SelectObject ObjectType.COMMAND) (set_world w2 t1) in
  let sent :=
    _createAndWriteObject (remainingData state) ObjectType.COMMAND
      None None t2 in
  sendInitPacket fuel data t = Some sent
  /\ exists n delta,
       (1 <= n <= MAX_RETRIES)%nat
       /\ calls (snd sent) = calls t2 ++ delta
       /\ filter is_CreateObject delta
          = repeat (CreateObject ObjectType.COMMAND
                      (List.length (remainingData state))) n
       /\ Forall (fun c => is_WriteObject c = true ->
                           c = WriteObject (remainingData state)
                                 ObjectType.COMMAND None None) delta.
Proof.
  intros Hinit Hsel Hnew Hres t2 sent. subst t2 sent. split.
  - unfold sendInitPacket, athen.
    rewrite (getInitPacketState_run fuel data _ _ _ _ _ _ Hinit Hsel Hnew).
    rewrite Hres. reflexivity.
  - destruct (tryWrite_attempts (remainingData state) ObjectType.COMMAND
                None None MAX_RETRIES 0
                (log (SelectObject ObjectType.COMMAND) (set_world w2 t1)))
      as (n & Hn & _ & _ & _ & delta & Hd & Hlen & Hs);
      [reflexivity | unfold MAX_RETRIES; lia |].
    exists n, delta. split; [exact Hn |]. split; [exact Hd |]. split.
    + rewrite <- Hlen. apply filter_all_same.
      eapply Forall_impl; [| exact Hs]. intros c [Hc _]. exact Hc.
    + eapply Forall_impl; [| exact Hs]. intros c [_ Hc]. exact Hc.
Qed.

(** X18.  With no object left to send, [sendFirmware] makes no call
    after selectObject when the state is not resumable and resolves with
    the offset and crc of the state; when the state is resumable it is
    the single write of the remaining partial object. *)
Theorem sendFirmware_nothing_remaining (fuel : nat) (data : bytes)
  (t t1 : Transport Env) (v : option bool)
  (response : SelectResponse) (w2 : Env) (state : FirmwareState) :
  init fuel (_emitInitializeEvent ObjectType.DATA t) = Some (Resolved v, t1) ->
  controlPoint_selectObject ObjectType.DATA (world t1)
  = (Resolved response, w2) ->
  new_FirmwareState data response = Resolved state ->
  remainingObjects state = [] ->
  let t2 := log (SelectObject ObjectType.DATA) (set_world w2 t1) in
  (fw_isResumable state = false ->
   sendFirmware fuel data t
   = Some (Resolved {| offset := fw_offset state; crc32 := fw_crc32 state |},
           t2))
  /\ (fw_isResumable state = true ->
      sendFirmware fuel data t
      = Some (_writeObject (remainingPartialObject state) ObjectType.DATA
                (fw_offset state) (fw_crc32 state) t2)).
Proof.
  intros Hinit Hsel Hnew Hnone t2. subst t2.
  split; intro Hres; unfold sendFirmware, athen;
    rewrite (getFirmwareState_run fuel data _ _ _ _ _ _ Hinit Hsel Hnew);
    rewrite Hres, Hnone; unfold settled; f_equal.
  unfold then_, _createAndWriteObjects. cbn [fold_left].
  destruct (_writeObject (remainingPartialObject state) ObjectType.DATA
              (fw_offset state) (fw_crc32 state)
              (log (SelectObject ObjectType.DATA) (set_world w2 t1)))
    as [[[o c] | e] t3]; reflexivity.
Qed.

End SendMore.

(** * The further properties on the scripted target *)

Module MoreExamples.

Import Scripted Inputs.

Local Open Scope list_scope.

(** Of two keys with the value 1 the later one names it. *)
Lemma _getCodeName_last_entry_witness : _getCodeName codes 1 = "B"%string.
Proof.
  refine (proj1 _getCodeName_last_entry [("A"%string, 1)] [("C"%string, 2)]
            "B"%string 1 _ _).
  - discriminate.
  - cbn [map snd In]. lia.
Defined.

Lemma code_names_round_trip_witness :
  getResultCodeName 10 = "OPERATION_FAILED"%string
  /\ getOpCodeName 5 = "UNKNOWN"%string.
Proof.
  destruct code_names_round_trip as (Hname & _ & _ & Hunknown).
  split.
  - apply Hname. cbn [ResultCode_object In]. do 8 right. left. reflexivity.
  - apply Hunknown. cbn [In]. lia.
Defined.

(** The peer is found, and it has the target address. *)
Lemma _getConnectedDevice_sound_witness :
  let t := transport [(instanceId peer, peer)] [] nothing true in
  fst (_getConnectedDevice target t) = Some peer /\ address peer = target.
Proof.
  intro t. split; [reflexivity |].
  destruct (_getConnectedDevice_sound target t) as (_ & _ & Hfound).
  exact (proj1 (Hfound peer eq_refl)).
Defined.

(** A stale entry before the connected peer hides it. *)
Lemma connectedDevice_first_match_witness :
  connectedDevice [(instanceId stale, stale); (instanceId peer, peer)] target
  = None.
Proof.
  refine (connectedDevice_first_match [] [(instanceId peer, peer)]
            (instanceId stale) target stale _ _ _).
  - cbn [app map fst]. repeat constructor; cbn [In]; intuition discriminate.
  - constructor.
  - reflexivity.
Defined.

(** After the timeout a late disconnection changes nothing. *)
Lemma wait_settles_once_witness :
  let t := transport [(instanceId peer, peer)] [] nothing true in
  deliver_all (deliver_all (fst (waitForDisconnection t)) [TimerExpired])
    [DeviceDisconnected peer]
  = deliver_all (fst (waitForDisconnection t)) [TimerExpired].
Proof.
  intro t.
  destruct (wait_settles_once t [TimerExpired]) as (_ & _ & Hfinal).
  apply Hfinal. discriminate.
Defined.

(** The adapter fails to connect. *)
Lemma init_failure_leaves_uninitialized_witness :
  let t := transport [] [Fail commandError] nothing false in
  exists t', init 1 t = Some (Rejected commandError, t')
             /\ _isInitialized t' = false.
Proof.
  intro t.
  destruct (init 1 t) as [[[v | e] t'] |] eqn:Hinit;
    try (vm_compute in Hinit; discriminate).
  destruct (init_failure_leaves_uninitialized 1%nat t t' _ Hinit)
    as (_ & _ & _ & Hflag).
  exists t'. split; [| exact (Hflag e eq_refl eq_refl)].
  vm_compute in Hinit. injection Hinit as <- _. reflexivity.
Defined.

Lemma init_with_prn_pending_or_rejected_witness :
  init 3 with_prn = None
  \/ exists e t', init 3 with_prn = Some (Rejected e, t')
                  /\ _isInitialized t' = false.
Proof.
  apply init_with_prn_pending_or_rejected; reflexivity.
Defined.


(** The peer is connected and discovered, and the adapter refuses to
    start the notifications. *)
Lemma init_failures_witness :
  let t := transport [(instanceId peer, peer)]
             [Proceed; Proceed; Fail commandError] nothing false in
  exists t',
    init 1 t
    = Some (Rejected (createError ErrorCode.NOTIFICATION_START_ERROR
                        "Operation failed."), t')
    /\ _isInitialized t' = false.
Proof.
  intro t.
  destruct (init_failures 0%nat t eq_refl) as [_ Hstart].
  destruct (_connectIfNeeded target "BLE_GAP_ADDR_TYPE_RANDOM_STATIC" t)
    as [[device | e] t0] eqn:Hconn; [| vm_compute in Hconn; discriminate].
  destruct (_getCharacteristicIds device t0) as [[[cp pk] | e] t1] eqn:Hids;
    [| vm_compute in Hconn; injection Hconn as <- <-;
       vm_compute in Hids; discriminate].
  destruct (adapter_startCharacteristicsNotifications cp false (world t1))
    as [[err |] w] eqn:Hnotify;
    [| vm_compute in Hconn; injection Hconn as <- <-;
       vm_compute in Hids; injection Hids as <- <- <-;
       vm_compute in Hnotify; discriminate].
  destruct (Hstart device t0 cp pk t1 err w Hconn Hids Hnotify)
    as (t' & Hinit & _ & Hflag).
  exists t'. split; [| exact Hflag].
  vm_compute in Hconn. injection Hconn as <- <-.
  vm_compute in Hids. injection Hids as <- <- <-.
  vm_compute in Hnotify. injection Hnotify as <- _.
  exact Hinit.
Defined.

(** One command error, then a good attempt: the second decides. *)
Lemma _createAndWriteObject_decided_witness :
  let t := transport [] [Fail commandError] nothing true in
  fst (_createAndWriteObject object ObjectType.DATA (Some 0) (Some 0) t)
  = Resolved {| offset := Some 3; crc32 := Some 1026 |}.
Proof.
  intro t.
  rewrite (_createAndWriteObject_decided object ObjectType.DATA
             (Some 0) (Some 0) 1 t).
  - reflexivity.
  - unfold MAX_RETRIES. lia.
  - intros j Hj. assert (j = 0%nat) as -> by lia.
    exists commandError. split; [reflexivity |]. split; discriminate.
  - left. eexists. reflexivity.
Defined.

Lemma _createAndWriteObject_resolved_witness :
  let t := transport [] [] nothing true in
  exists p t' w2,
    _createAndWriteObject object ObjectType.DATA (Some 0) (Some 0) t
    = (Resolved p, t')
    /\ controlPoint_execute w2 = (Resolved tt, world t').
Proof.
  intro t.
  destruct (_createAndWriteObject object ObjectType.DATA (Some 0) (Some 0) t)
    as [[p | e] t'] eqn:Hrun; [| vm_compute in Hrun; discriminate].
  destruct (_createAndWriteObject_resolved object ObjectType.DATA
              (Some 0) (Some 0) t t' p Hrun)
    as (front & s & w0 & packets & w1 & response & w2 & Hrest).
  exists p, t', w2. split; [reflexivity |]. apply Hrest.
Defined.

(** Two objects, the first created twice. *)
Lemma _createAndWriteObjects_create_order_witness :
  let t := transport [] [Fail commandError] nothing true in
  let objects := [[Byte.x01; Byte.x02]; [Byte.x03]] in
  exists delta counts,
    calls (snd (_createAndWriteObjects objects ObjectType.DATA
                  (Some 0) (Some 0) t))
    = calls t ++ delta
    /\ filter is_CreateObject delta
       = create_calls ObjectType.DATA objects counts
    /\ List.length counts = 2%nat.
Proof.
  intros t objects.
  destruct (_createAndWriteObjects_create_order objects ObjectType.DATA
              (Some 0) (Some 0) t)
    as (delta & counts & Hcalls & _ & _ & Hcreate & Hall & _).
  exists delta, counts. split; [exact Hcalls |]. split; [exact Hcreate |].
  eapply Hall. vm_compute. reflexivity.
Defined.


Lemma send_keeps_transport_witness :
  let t := transport [] [] two_bytes false in
  exists p t',
    sendFirmware 1 firmware t = Some (Resolved p, t')
    /\ _isInitialized t' = true
    /\ _transportParameters t' = parameters.
Proof.
  intro t.
  destruct (sendFirmware 1 firmware t) as [[[p | e] t'] |] eqn:Hsend;
    try (vm_compute in Hsend; discriminate).
  destruct (send_keeps_transport 1%nat firmware t t' _ (or_intror Hsend))
    as (Hparams & _ & Hinit).
  exists p, t'. split; [reflexivity |].
  split; [exact (Hinit p eq_refl) | exact Hparams].
Defined.

(** An init packet of ten bytes for a target that takes four. *)
Lemma sendInitPacket_stops_at_first_failure_witness :
  let t := transport [] [] nothing false in
  exists t',
    sendInitPacket 1 firmware t
    = Some (Rejected (createError ErrorCode.INIT_PACKET_TOO_LARGE
                        "Init packet too large."), t')
    /\ filter is_CreateObject (calls t') = [].
Proof.
  intro t.
  destruct (init 1 (_emitInitializeEvent ObjectType.COMMAND t))
    as [[[v | e] t1] |] eqn:Hinit; try (vm_compute in Hinit; discriminate).
  destruct (controlPoint_selectObject ObjectType.COMMAND (world t1))
    as [[response | e] w] eqn:Hsel;
    [| vm_compute in Hinit; injection Hinit as _ <-;
       vm_compute in Hsel; discriminate].
  destruct (new_InitPacketState firmware response) as [state | e] eqn:Hnew;
    [vm_compute in Hinit; injection Hinit as _ <-;
     vm_compute in Hsel; injection Hsel as <- _;
     vm_compute in Hnew; discriminate |].
  rewrite (proj2 (proj2 (sendInitPacket_stops_at_first_failure
                          1%nat firmware t))
             v t1 response w e Hinit Hsel Hnew).
  vm_compute in Hinit. injection Hinit as _ <-.
  vm_compute in Hsel. injection Hsel as <- <-.
  vm_compute in Hnew. injection Hnew as <-.
  eexists. split; reflexivity.
Defined.

(** The device rejects the selection of the firmware object. *)
Lemma sendFirmware_stops_at_first_failure_witness :
  let t := transport []
             [Proceed; Proceed; Proceed; Proceed; Fail commandError]
             nothing false in
  exists t', sendFirmware 1 firmware t = Some (Rejected commandError, t').
Proof.
  intro t.
  destruct (init 1 (_emitInitializeEvent ObjectType.DATA t))
    as [[[v | e] t1] |] eqn:Hinit; try (vm_compute in Hinit; discriminate).
  destruct (controlPoint_selectObject ObjectType.DATA (world t1))
    as [[response | e] w] eqn:Hsel;
    [vm_compute in Hinit; injection Hinit as _ <-;
     vm_compute in Hsel; discriminate |].
  rewrite (proj1 (proj2 (sendFirmware_stops_at_first_failure
                          1%nat firmware t))
             v t1 e w Hinit Hsel).
  vm_compute in Hinit. injection Hinit as _ <-.
  vm_compute in Hsel. injection Hsel as <- _.
  eexists. reflexivity.
Defined.

(** A target that holds nothing of the init packet. *)
Lemma sendInitPacket_fresh_witness :
  let t := transport [] [] nothing false in
  exists t2 n delta,
    sendInitPacket 1 object t
    = Some (_createAndWriteObject object ObjectType.COMMAND None None t2)
    /\ calls (snd (_createAndWriteObject object ObjectType.COMMAND
                     None None t2))
       = calls t2 ++ delta
    /\ filter is_CreateObject delta
       = repeat (CreateObject ObjectType.COMMAND 3) n.
Proof.
  intro t.
  destruct (init 1 (_emitInitializeEvent ObjectType.COMMAND t))
    as [[[v | e] t1] |] eqn:Hinit; try (vm_compute in Hinit; discriminate).
  destruct (controlPoint_selectObject ObjectType.COMMAND (world t1))
    as [[response | e] w2] eqn:Hsel;
    [| vm_compute in Hinit; injection Hinit as _ <-;
       vm_compute in Hsel; discriminate].
  destruct (new_InitPacketState object response) as [state | e] eqn:Hnew;
    [| vm_compute in Hinit; injection Hinit as _ <-;
       vm_compute in Hsel; injection Hsel as <- _;
       vm_compute in Hnew; discriminate].
  pose proof (sendInitPacket_fresh 1%nat object t t1 v response w2 state
                Hinit Hsel Hnew) as Hfresh.
  vm_compute in Hinit. injection Hinit as _ <-.
  vm_compute in Hsel. injection Hsel as <- <-.
  vm_compute in Hnew. injection Hnew as <-.
  destruct (Hfresh eq_refl) as (Hsend & n & delta & _ & Hcalls & Hcreate & _).
  eexists. exists n, delta.
  split; [exact Hsend | split; [exact Hcalls | exact Hcreate]].
Defined.

(** Empty firmware. *)
Lemma sendFirmware_nothing_remaining_witness :
  let t := transport [] [] nothing false in
  exists t2,
    sendFirmware 1 [] t
    = Some (Resolved {| offset := Some 0; crc32 := None |}, t2).
Proof.
  intro t.
  destruct (init 1 (_emitInitializeEvent ObjectType.DATA t))
    as [[[v | e] t1] |] eqn:Hinit; try (vm_compute in Hinit; discriminate).
  destruct (controlPoint_selectObject ObjectType.DATA (world t1))
    as [[response | e] w2] eqn:Hsel;
    [| vm_compute in Hinit; injection Hinit as _ <-;
       vm_compute in Hsel; discriminate].
  destruct (new_FirmwareState [] response) as [state | e] eqn:Hnew;
    [| vm_compute in Hinit; injection Hinit as _ <-;
       vm_compute in Hsel; injection Hsel as <- _;
       vm_compute in Hnew; discriminate].
  pose proof (sendFirmware_nothing_remaining 1%nat [] t t1 v response w2 state
                Hinit Hsel Hnew) as Hnothing.
  vm_compute in Hinit. injection Hinit as _ <-.
  vm_compute in Hsel. injection Hsel as <- <-.
  vm_compute in Hnew. injection Hnew as <-.
  destruct (Hnothing eq_refl) as [Hfresh _].
  eexists. exact (Hfresh eq_refl).
Defined.

End MoreExamples.

(** * Where the code departs from its documentation *)

Module Findings.

Import Scripted Inputs.

Local Open Scope list_scope.

(** C7.  The adapter lists a disconnected entry with the target address
    before the connected peer.  A device with the target address is
    connected, yet [waitForDisconnection] is resolved at once, with no
    listener and no timer: the lookup takes the first device with the
    address and only then asks whether it is connected. *)
Theorem waitForDisconnection_skips_connected_peer :
  let t := transport [(instanceId stale, stale); (instanceId peer, peer)]
             [] nothing true in
  (In (instanceId peer, peer) (adapter_getDevices (world t))
   /\ address peer = targetAddress (_transportParameters t)
   /\ connected peer = true)
  /\ fst (_getConnectedDevice (targetAddress (_transportParameters t)) t)
     = None
  /\ fst (waitForDisconnection t)
     = {| outcome := Some (Resolved tt); listener := None; timer := None |}.
Proof.
  intro t. split; [| split; reflexivity].
  split; [right; left; reflexivity | split; reflexivity].
Qed.

(** C8.  On the same devices the connected peer asks for new connection
    parameters: the request is dropped, no [updateConnectionParameters]
    call is made and nothing is thrown, for the same reason. *)
Theorem connParamUpdateRequest_dropped_for_connected_peer :
  let t := transport [(instanceId stale, stale); (instanceId peer, peer)]
             [Fail commandError] nothing true in
  (In (instanceId peer, peer) (adapter_getDevices (world t))
   /\ address peer = targetAddress (_transportParameters t)
   /\ connected peer = true)
  /\ fst (_handleConnParamUpdateRequest peer requested t) = None
  /\ calls (snd (_handleConnParamUpdateRequest peer requested t))
     = [GetDevices]
  /\ world (snd (_handleConnParamUpdateRequest peer requested t)) = world t.
Proof.
  intro t. split; [| repeat split; reflexivity].
  split; [right; left; reflexivity | split; reflexivity].
Qed.

End Findings.
